(** * Enaml dynamic scoping: [DynamicScope] and [Nonlocals]

    A shallow embedding of [enaml/core/dynamic_scope.py] and the proofs of
    its specification.

    The Python program works on a heap of mutable objects that are shared
    by reference: the dicts handed to [DynamicScope], the owner objects
    (the [Declarative] tree, linked by their [parent] attribute), the
    scope objects themselves (whose listener slot [__contains__] rebinds
    for a moment) and the listener.  The embedding therefore threads an
    explicit state through every method: a heap from locations to objects,
    and the log of the calls made to [listener.dynamic_load]. *)

From stdpp Require Import gmap strings list fin_maps.
From Stdlib Require Import ZArith.

Local Open Scope Z_scope.
Local Open Scope string_scope.
Local Open Scope list_scope.

(** ** Values and objects *)

Definition loc := positive.

(** Python values.  Mutable objects are references into the heap.  [VInt]
    is the type [int]; [bool] is a subclass of [int]. *)
Inductive value : Type :=
  | VNone
  | VBool (b : bool)
  | VInt (z : Z)
  | VStr (s : string)
  | VRef (l : loc).

(** The instance attributes of a [DynamicScope] (set by [__init__]). *)
Record DynamicScope_inst : Type := MkDynamicScope {
  _obj : value;
  _identifiers : value;
  _overrides : value;
  _f_globals : value;
  _listener : value
}.

(** The instance dict of a [Nonlocals] (set by [__init__]). *)
Record Nonlocals_inst : Type := MkNonlocals {
  _nls_obj : value;
  _nls_listener : value
}.

(** Heap objects.
    - [ODict]: a dict, seen through its string keys (every key the scope
      looks up is a name).
    - [OInst]: an owner object.  [attrs] is what [getattr] finds on it,
      the [parent] back-reference included; [accepts] tells for which
      names [setattr] succeeds (the others raise [AttributeError], as a
      slotted object does for a name it does not declare).
    - [OScope], [ONonlocals]: instances of the two classes of the module. *)
Inductive object : Type :=
  | ODict (d : gmap string value)
  | OInst (attrs : gmap string value) (accepts : string -> bool)
  | OScope (sc : DynamicScope_inst)
  | ONonlocals (nl : Nonlocals_inst).

(** One call [listener.dynamic_load(obj, name, value)]. *)
Record event : Type := DynamicLoad {
  ev_listener : value;
  ev_obj : value;
  ev_name : string;
  ev_value : value
}.

Record state : Type := MkState {
  heap : gmap loc object;
  trace : list event
}.

(** ** Outcomes and the state-and-exception monad *)

Inductive exn : Type :=
  | KeyError (key : string)
  | AttributeError
  | ValueError
  | TypeError
  | RuntimeError.

(** [Diverge]: the loop did not finish within the fuel given.
    [Unmodelled]: the program left the fragment of Python modelled here
    (a dangling location, an operation on a kind of object whose protocol
    is not modelled). *)
Inductive res (A : Type) : Type :=
  | Ok (a : A)
  | Raise (e : exn)
  | Diverge
  | Unmodelled.
Arguments Ok {A} a.
Arguments Raise {A} e.
Arguments Diverge {A}.
Arguments Unmodelled {A}.

Definition M (A : Type) : Type := state -> res A * state.

Definition ret {A} (a : A) : M A := fun st => (Ok a, st).
Definition raise {A} (e : exn) : M A := fun st => (Raise e, st).
Definition diverge {A} : M A := fun st => (Diverge, st).

Definition bind {A B} (m : M A) (k : A -> M B) : M B :=
  fun st =>
    match m st with
    | (Ok a, st') => k a st'
    | (Raise e, st') => (Raise e, st')
    | (Diverge, st') => (Diverge, st')
    | (Unmodelled, st') => (Unmodelled, st')
    end.

Notation "'let!' x ':=' m 'in' k" := (bind m (fun x => k))
  (at level 10, x name, m at level 100, k at level 200).
Notation "'let!' ' pat ':=' m 'in' k" :=
  (bind m (fun x => match x with pat => k end))
  (at level 10, pat pattern, m at level 100, k at level 200).

(** [try: m except KeyError: h else: k] *)
Definition try_except_KeyError {A B} (m : M A) (h : M B) (k : A -> M B) : M B :=
  fun st =>
    match m st with
    | (Ok a, st') => k a st'
    | (Raise (KeyError _), st') => h st'
    | (Raise e, st') => (Raise e, st')
    | (Diverge, st') => (Diverge, st')
    | (Unmodelled, st') => (Unmodelled, st')
    end.

(** [try: m except AttributeError: h else: k] *)
Definition try_except_AttributeError {A B} (m : M A) (h : M B) (k : A -> M B) : M B :=
  fun st =>
    match m st with
    | (Ok a, st') => k a st'
    | (Raise AttributeError, st') => h st'
    | (Raise e, st') => (Raise e, st')
    | (Diverge, st') => (Diverge, st')
    | (Unmodelled, st') => (Unmodelled, st')
    end.

(** [try: m finally: f].  The [finally] clause runs when [m] returns or
    raises; an exception of [m] is raised again after it. *)
Definition try_finally {A} (m : M A) (f : M unit) : M A :=
  fun st =>
    match m st with
    | (Ok a, st') => bind f (fun _ => ret a) st'
    | (Raise e, st') => bind f (fun _ => raise e) st'
    | r => r
    end.

(** ** Primitive operations of the Python object model *)

Definition is_None (v : value) : bool :=
  match v with VNone => true | _ => false end.

(** [isinstance(v, basestring)] *)
Definition isinstance_basestring (v : value) : option string :=
  match v with VStr s => Some s | _ => None end.

(** [isinstance(v, int)], with the integer the value stands for. *)
Definition isinstance_int (v : value) : option Z :=
  match v with
  | VInt z => Some z
  | VBool b => Some (if b then 1 else 0)
  | _ => None
  end.

(** Operations that only read the heap. *)
Definition read {A} (f : gmap loc object -> res A) : M A :=
  fun st => (f (heap st), st).

(** [name in dct].  A value that is no container raises [TypeError]; the
    substring test of a string and the containers of other classes are
    not modelled. *)
Definition contains_in (h : gmap loc object) (dct : value) (name : string) : res bool :=
  match dct with
  | VRef l =>
      match h !! l with
      | Some (ODict d) => Ok (bool_decide (is_Some (d !! name)))
      | Some (OInst _ _) => Raise TypeError
      | _ => Unmodelled
      end
  | VStr _ => Unmodelled
  | _ => Raise TypeError
  end.

Definition py_contains (dct : value) (name : string) : M bool :=
  read (fun h => contains_in h dct name).

(** [dct[name]] *)
Definition getitem_in (h : gmap loc object) (dct : value) (name : string) : res value :=
  match dct with
  | VRef l =>
      match h !! l with
      | Some (ODict d) =>
          match d !! name with
          | Some v => Ok v
          | None => Raise (KeyError name)
          end
      | Some (OInst _ _) => Raise TypeError
      | _ => Unmodelled
      end
  | _ => Raise TypeError
  end.

Definition py_getitem (dct : value) (name : string) : M value :=
  read (fun h => getitem_in h dct name).

(** [dct[name] = v] *)
Definition py_setitem (dct : value) (name : string) (v : value) : M unit :=
  fun st =>
    match dct with
    | VRef l =>
        match heap st !! l with
        | Some (ODict d) =>
            (Ok tt, MkState (<[l := ODict (<[name := v]> d)]> (heap st)) (trace st))
        | Some (OInst _ _) => (Raise TypeError, st)
        | _ => (Unmodelled, st)
        end
    | _ => (Raise TypeError, st)
    end.

(** [getattr(o, name)] on an owner object: the value, or
    [AttributeError]. *)
Definition getattr_in (h : gmap loc object) (o : value) (name : string) : res value :=
  match o with
  | VRef l =>
      match h !! l with
      | Some (OInst attrs _) =>
          match attrs !! name with
          | Some v => Ok v
          | None => Raise AttributeError
          end
      | _ => Unmodelled
      end
  | _ => Unmodelled
  end.

Definition py_getattr (o : value) (name : string) : M value :=
  read (fun h => getattr_in h o name).

(** [setattr(o, name, v)] on an owner object. *)
Definition py_setattr (o : value) (name : string) (v : value) : M unit :=
  fun st =>
    match o with
    | VRef l =>
        match heap st !! l with
        | Some (OInst attrs accepts) =>
            if accepts name
            then (Ok tt, MkState (<[l := OInst (<[name := v]> attrs) accepts]> (heap st))
                                 (trace st))
            else (Raise AttributeError, st)
        | _ => (Unmodelled, st)
        end
    | _ => (Unmodelled, st)
    end.

(** [listener.dynamic_load(obj, name, value)].  The method is abstract
    in the source; a listener is taken to record the load and do nothing
    else, so the call is an entry in the log. *)
Definition dynamic_load (listener obj : value) (name : string) (v : value) : M unit :=
  fun st =>
    (Ok tt, MkState (heap st) (trace st ++ [DynamicLoad listener obj name v])).

(** Allocation of a new object. *)
Definition alloc (o : object) : M value :=
  fun st =>
    let l := fresh (dom (heap st)) in
    (Ok (VRef l), MkState (<[l := o]> (heap st)) (trace st)).

(** ** class DynamicScope *)

Module DynamicScope.

(** Reading and rebinding an instance attribute of [self]. *)
Definition load (self : loc) : M DynamicScope_inst :=
  read (fun h => match h !! self with
                 | Some (OScope sc) => Ok sc
                 | _ => Unmodelled
                 end).

Definition store_listener (self : loc) (v : value) : M unit :=
  fun st =>
    match heap st !! self with
    | Some (OScope sc) =>
        (Ok tt,
         MkState (<[self := OScope (MkDynamicScope (_obj sc) (_identifiers sc)
                                      (_overrides sc) (_f_globals sc) v)]> (heap st))
                 (trace st))
    | _ => (Unmodelled, st)
    end.

Definition __init__ (obj identifiers overrides f_globals listener : value) : M value :=
  alloc (OScope (MkDynamicScope obj identifiers overrides f_globals listener)).

(** The loop [while parent is not None] of [__getitem__]. *)
Fixpoint getitem_walk (fuel : nat) (self : loc) (name : string) (parent : value)
  : M value :=
  if is_None parent then raise (KeyError name)
  else
    match fuel with
    | O => diverge
    | S fuel' =>
        try_except_AttributeError (py_getattr parent name)
          (let! parent' := py_getattr parent "parent" in
           getitem_walk fuel' self name parent')
          (fun value =>
             let! sc := load self in
             let listener := _listener sc in
             let! _ := (if is_None listener then ret tt
                        else dynamic_load listener parent name value) in
             ret value)
    end.

Definition __getitem__ (fuel : nat) (self : loc) (name : string) : M value :=
  let! sc := load self in
  let dct := _overrides sc in
  let! c := py_contains dct name in
  if c then py_getitem dct name else
  let dct := _identifiers sc in
  let! c := py_contains dct name in
  if c then py_getitem dct name else
  let dct := _f_globals sc in
  let! c := py_contains dct name in
  if c then py_getitem dct name else
  let! dct := py_getitem dct "__builtins__" in
  let! c := py_contains dct name in
  if c then py_getitem dct name else
  getitem_walk fuel self name (_obj sc).

Definition __setitem__ (self : loc) (name : string) (v : value) : M unit :=
  let! sc := load self in
  py_setitem (_overrides sc) name v.

Definition __contains__ (fuel : nat) (self : loc) (name : value) : M bool :=
  match isinstance_basestring name with
  | Some name =>
      let! sc := load self in
      let listener := _listener sc in
      let! _ := store_listener self VNone in
      try_finally
        (try_except_KeyError (__getitem__ fuel self name)
           (ret false)
           (fun _ => ret true))
        (store_listener self listener)
  | None => ret false
  end.

End DynamicScope.

(** ** class Nonlocals *)

Module Nonlocals.

Definition load (self : loc) : M Nonlocals_inst :=
  read (fun h => match h !! self with
                 | Some (ONonlocals nl) => Ok nl
                 | _ => Unmodelled
                 end).

(** [self.__dict__[name] = v], for the two keys the instance dict has. *)
Definition store_dict (self : loc) (name : string) (v : value) : M unit :=
  fun st =>
    match heap st !! self with
    | Some (ONonlocals nl) =>
        let nl' :=
          if String.eqb name "_nls_obj" then MkNonlocals v (_nls_listener nl)
          else MkNonlocals (_nls_obj nl) v in
        (Ok tt, MkState (<[self := ONonlocals nl']> (heap st)) (trace st))
    | _ => (Unmodelled, st)
    end.

Definition __init__ (obj listener : value) : M value :=
  alloc (ONonlocals (MkNonlocals obj listener)).

(** The loop [while target is not None and offset != level] of
    [__call__]; it returns the final [target] and [offset]. *)
Fixpoint call_walk (fuel : nat) (level : Z) (target : value) (offset : Z)
  : M (value * Z) :=
  if negb (is_None target) && negb (Z.eqb offset level) then
    match fuel with
    | O => diverge
    | S fuel' =>
        let! target' := py_getattr target "parent" in
        call_walk fuel' level target' (offset + 1)
    end
  else ret (target, offset).

(** [offset] counts from 0 up to [level], so [level] iterations are all
    the loop can make. *)
Definition __call__ (self : loc) (level : value) : M value :=
  match isinstance_int level with
  | None => raise ValueError
  | Some lv =>
      if Z.ltb lv 0 then raise ValueError else
      let offset := 0 in
      let! nl := load self in
      let target := _nls_obj nl in
      let! '(target, offset) := call_walk (Z.to_nat lv) lv target offset in
      if negb (Z.eqb offset lv) then raise ValueError else
      let! nl := load self in
      __init__ target (_nls_listener nl)
  end.

(** The loop of [__getitem__]. *)
Fixpoint getitem_walk (fuel : nat) (self : loc) (name : string) (parent : value)
  : M value :=
  if is_None parent then raise (KeyError name)
  else
    match fuel with
    | O => diverge
    | S fuel' =>
        try_except_AttributeError (py_getattr parent name)
          (let! parent' := py_getattr parent "parent" in
           getitem_walk fuel' self name parent')
          (fun value =>
             let! nl := load self in
             let listener := _nls_listener nl in
             let! _ := (if is_None listener then ret tt
                        else dynamic_load listener parent name value) in
             ret value)
    end.

Definition __getitem__ (fuel : nat) (self : loc) (name : string) : M value :=
  let! nl := load self in
  getitem_walk fuel self name (_nls_obj nl).

(** The loop of [__setitem__]. *)
Fixpoint setitem_walk (fuel : nat) (name : string) (v : value) (parent : value)
  : M unit :=
  if is_None parent then raise (KeyError name)
  else
    match fuel with
    | O => diverge
    | S fuel' =>
        try_except_AttributeError (py_setattr parent name v)
          (let! parent' := py_getattr parent "parent" in
           setitem_walk fuel' name v parent')
          (fun _ => ret tt)
    end.

Definition __setitem__ (fuel : nat) (self : loc) (name : string) (v : value)
  : M unit :=
  let! nl := load self in
  setitem_walk fuel name v (_nls_obj nl).

(** [__repr__] reads [self._obj], which no instance has: the lookup goes
    to [__getattr__], whose [KeyError] handler formats [self] and so
    calls [__repr__] again.  [depth] is the number of nested calls the
    interpreter allows; beyond it [RuntimeError] is raised.  The text of
    the messages is not modelled. *)
Fixpoint __repr__ (depth fuel : nat) (self : loc) : M unit :=
  match depth with
  | O => raise RuntimeError
  | S depth' =>
      let! _ := __getattr__ depth' fuel self "_obj" in
      ret tt
  end
with __getattr__ (depth fuel : nat) (self : loc) (name : string) : M value :=
  match depth with
  | O => raise RuntimeError
  | S depth' =>
      try_except_KeyError (__getitem__ fuel self name)
        (let! _ := __repr__ depth' fuel self in
         raise AttributeError)
        (fun v => ret v)
  end.

Definition __setattr__ (depth fuel : nat) (self : loc) (name : string) (v : value)
  : M unit :=
  if String.eqb name "_nls_obj" || String.eqb name "_nls_listener" then
    store_dict self name v
  else
    try_except_KeyError (__setitem__ fuel self name v)
      (let! _ := __repr__ depth fuel self in
       raise AttributeError)
      (fun _ => ret tt).

Definition __contains__ (depth fuel : nat) (self : loc) (name : value) : M bool :=
  match isinstance_basestring name with
  | Some name =>
      let! nl := load self in
      let listener := _nls_listener nl in
      let! _ := __setattr__ depth fuel self "_nls_listener" VNone in
      try_finally
        (try_except_KeyError (__getitem__ fuel self name)
           (ret false)
           (fun _ => ret true))
        (__setattr__ depth fuel self "_nls_listener" listener)
  | None => ret false
  end.

End Nonlocals.

(** ** The vocabulary of the specification *)

(** The mapping a value refers to. *)
Definition dict_at (h : gmap loc object) (v : value) : option (gmap string value) :=
  match v with
  | VRef l => match h !! l with Some (ODict d) => Some d | _ => None end
  | _ => None
  end.

(** Probe-get: the dynamic attribute [name] of the owner at [l]. *)
Definition attr_at (h : gmap loc object) (l : loc) (name : string) : option value :=
  match h !! l with
  | Some (OInst attrs _) => attrs !! name
  | _ => None
  end.

(** Probe-set: does the owner at [l] accept a write to [name]? *)
Definition accepts_at (h : gmap loc object) (l : loc) (name : string) : bool :=
  match h !! l with
  | Some (OInst _ accepts) => accepts name
  | _ => false
  end.

(** [chain h v nodes]: starting at [v] and following [parent], one meets
    the owner objects [nodes], in this order, and then an absent parent. *)
Fixpoint chain (h : gmap loc object) (v : value) (nodes : list loc) : bool :=
  match nodes, v with
  | [], VNone => true
  | l :: nodes', VRef l' =>
      bool_decide (l' = l) &&
      match h !! l with
      | Some (OInst attrs _) =>
          match attrs !! "parent" with
          | Some p => chain h p nodes'
          | None => false
          end
      | _ => false
      end
  | _, _ => false
  end.

(** The node reached after [k] hops along a chain of [nodes]: the absent
    parent once the owners are used up. *)
Definition hop (nodes : list loc) (k : nat) : value :=
  match nodes !! k with
  | Some l => VRef l
  | None => VNone
  end.

(** The hierarchy walk of the specification: the first node of the chain
    on which the attribute is present, with its value. *)
Fixpoint first_holder (h : gmap loc object) (name : string) (nodes : list loc)
  : option (loc * value) :=
  match nodes with
  | [] => None
  | l :: nodes' =>
      match attr_at h l name with
      | Some v => Some (l, v)
      | None => first_holder h name nodes'
      end
  end.

(** What a notification adds to the state: nothing without a listener. *)
Definition notified (listener : value) (o : value) (name : string) (v : value)
  (st : state) : state :=
  if is_None listener then st
  else MkState (heap st) (trace st ++ [DynamicLoad listener o name v]).

(** The four local tiers of a scope, as the mappings its fields refer
    to; the builtins are the mapping under the key [__builtins__] of the
    globals. *)
Record tiers : Type := MkTiers {
  t_overrides : gmap string value;
  t_identifiers : gmap string value;
  t_globals : gmap string value;
  t_builtins : gmap string value
}.

Definition tiers_of (h : gmap loc object) (sc : DynamicScope_inst) : option tiers :=
  match dict_at h (_overrides sc), dict_at h (_identifiers sc),
        dict_at h (_f_globals sc) with
  | Some dO, Some dI, Some dG =>
      match dG !! "__builtins__" with
      | Some b =>
          match dict_at h b with
          | Some dB => Some (MkTiers dO dI dG dB)
          | None => None
          end
      | None => None
      end
  | _, _, _ => None
  end.

(** The tier lookup of the specification, steps 1 to 4. *)
Definition tier_lookup (t : tiers) (name : string) : option value :=
  match t_overrides t !! name with
  | Some v => Some v
  | None =>
      match t_identifiers t !! name with
      | Some v => Some v
      | None =>
          match t_globals t !! name with
          | Some v => Some v
          | None => t_builtins t !! name
          end
      end
  end.

(** ** A concrete hierarchy

    The scenario of the specification: the owners Root <- Mid <- Leaf,
    where Mid exposes [c = 3]; identifiers [{a: 1}], no overrides, globals
    [{b: 2, __builtins__: {len: ...}}]; a scope and an accessor on Leaf
    with one listener. *)
Module Scenario.

Definition root : loc := 1%positive.
Definition mid : loc := 2%positive.
Definition leaf : loc := 3%positive.
Definition identifiers : loc := 4%positive.
Definition overrides : loc := 5%positive.
Definition globals : loc := 6%positive.
Definition builtins : loc := 7%positive.
Definition scope : loc := 8%positive.
Definition nonlocals : loc := 9%positive.
Definition listener : loc := 10%positive.

(** Owners accept writes to the attributes they declare. *)
Definition declared (names : list string) (name : string) : bool :=
  bool_decide (name ∈ names).

Definition scope_inst : DynamicScope_inst :=
  MkDynamicScope (VRef leaf) (VRef identifiers) (VRef overrides) (VRef globals)
                 (VRef listener).

Definition nonlocals_inst : Nonlocals_inst :=
  MkNonlocals (VRef leaf) (VRef listener).

Definition objects : gmap loc object :=
  list_to_map
    [ (root, OInst (list_to_map [("parent", VNone); ("z", VInt 0)]) (declared ["z"]));
      (mid, OInst (list_to_map [("parent", VRef root); ("c", VInt 3); ("y", VInt 20)])
                  (declared ["c"; "y"]));
      (leaf, OInst (list_to_map [("parent", VRef mid); ("y", VInt 10)])
                   (declared ["y"]));
      (identifiers, ODict (list_to_map [("a", VInt 1)]));
      (overrides, ODict ∅);
      (globals, ODict (list_to_map [("b", VInt 2); ("__builtins__", VRef builtins)]));
      (builtins, ODict (list_to_map [("len", VStr "<built-in function len>")]));
      (scope, OScope scope_inst);
      (nonlocals, ONonlocals nonlocals_inst);
      (listener, OInst ∅ (declared [])) ].

Definition st0 : state := MkState objects [].

(** A second scope, constructed with one dict passed both as identifiers
    and as overrides: [d = {'a': 1}; DynamicScope(leaf, d, d, globals,
    listener)].  It is allocated at the next free location. *)
Definition construct_aliased : res value * state :=
  DynamicScope.__init__ (VRef leaf) (VRef identifiers) (VRef identifiers)
                        (VRef globals) (VRef listener) st0.

Definition aliased_scope : loc := 11%positive.

Definition st_aliased : state := snd construct_aliased.

Definition tiers0 : tiers :=
  MkTiers ∅
          (list_to_map [("a", VInt 1)])
          (list_to_map [("b", VInt 2); ("__builtins__", VRef builtins)])
          (list_to_map [("len", VStr "<built-in function len>")]).

End Scenario.

(** ** The walk as a function of the heap

    Both [getitem_walk] loops only read the heap until they find the
    attribute.  [find_attr] is that search alone: the owner on which the
    attribute was found and its value, or the way the search ended. *)
Fixpoint find_attr (fuel : nat) (h : gmap loc object) (name : string) (parent : value)
  : res (value * value) :=
  if is_None parent then Raise (KeyError name)
  else
    match fuel with
    | O => Diverge
    | S fuel' =>
        match getattr_in h parent name with
        | Ok v => Ok (parent, v)
        | Raise AttributeError =>
            match getattr_in h parent "parent" with
            | Ok parent' => find_attr fuel' h name parent'
            | Raise e => Raise e
            | Diverge => Diverge
            | Unmodelled => Unmodelled
            end
        | Raise e => Raise e
        | Diverge => Diverge
        | Unmodelled => Unmodelled
        end
    end.

(** The end of a walk: the listener, if any, is told of the hit. *)
Definition deliver (listener : value) (name : string) (r : res (value * value))
  (st : state) : res value * state :=
  match r with
  | Ok (o, v) => (Ok v, notified listener o name v st)
  | Raise e => (Raise e, st)
  | Diverge => (Diverge, st)
  | Unmodelled => (Unmodelled, st)
  end.

(** The part of the heap the walks depend on. *)
Definition owner_view (h : gmap loc object) (l : loc)
  : option (gmap string value * (string -> bool)) :=
  match h !! l with
  | Some (OInst attrs accepts) => Some (attrs, accepts)
  | _ => None
  end.

(** The call came back to its caller: with a value or with an exception. *)
Definition returned {A} (r : res A) : Prop :=
  match r with
  | Ok _ | Raise _ => True
  | Diverge | Unmodelled => False
  end.

(** Two heaps with the same mappings and the same owner objects: they
    may differ in the scope and accessor objects they hold. *)
Definition same_data (h1 h2 : gmap loc object) : Prop :=
  forall l, dict_at h1 (VRef l) = dict_at h2 (VRef l) /\
            owner_view h1 l = owner_view h2 l.

(** The objects of the two classes of the module, and free locations. *)
Definition no_data (o : option object) : bool :=
  match o with
  | Some (ODict _) | Some (OInst _ _) => false
  | _ => true
  end.

(** [self._listener] rebound to [None], as [__contains__] does. *)
Definition muted_scope (self : loc) (sc : DynamicScope_inst) (st : state) : state :=
  MkState (<[self := OScope (MkDynamicScope (_obj sc) (_identifiers sc) (_overrides sc)
                                            (_f_globals sc) VNone)]> (heap st))
          (trace st).

Definition muted_nonlocals (self : loc) (nl : Nonlocals_inst) (st : state) : state :=
  MkState (<[self := ONonlocals (MkNonlocals (_nls_obj nl) VNone)]> (heap st))
          (trace st).

(** The outcome of a membership test, from the outcome of the lookup. *)
Definition contains_outcome {A} (r : res A) (st st_muted : state) : res bool * state :=
  match r with
  | Ok _ => (Ok true, st)
  | Raise (KeyError _) => (Ok false, st)
  | Raise e => (Raise e, st)
  | Diverge => (Diverge, st_muted)
  | Unmodelled => (Unmodelled, st_muted)
  end.

(** ** The lookup of a scope as a function of the heap

    [DynamicScope.__getitem__] reads the heap only, up to the call of the
    listener.  [scope_find] is what it finds: a value of a tier, or the
    owner and the value the walk stopped on. *)
Definition res_bind {A B} (r : res A) (k : A -> res B) : res B :=
  match r with
  | Ok a => k a
  | Raise e => Raise e
  | Diverge => Diverge
  | Unmodelled => Unmodelled
  end.

Definition tier_find (h : gmap loc object) (dct : value) (name : string)
  (next : res (option value * value)) : res (option value * value) :=
  res_bind (contains_in h dct name)
    (fun c => if c then res_bind (getitem_in h dct name) (fun v => Ok (None, v))
              else next).

Definition scope_find (fuel : nat) (h : gmap loc object) (sc : DynamicScope_inst)
  (name : string) : res (option value * value) :=
  tier_find h (_overrides sc) name
    (tier_find h (_identifiers sc) name
       (tier_find h (_f_globals sc) name
          (res_bind (getitem_in h (_f_globals sc) "__builtins__")
             (fun b =>
                tier_find h b name
                  (res_bind (find_attr fuel h name (_obj sc))
                     (fun hit => Ok (Some (fst hit), snd hit))))))).

Definition scope_deliver (listener : value) (name : string)
  (r : res (option value * value)) (st : state) : res value * state :=
  match r with
  | Ok (Some o, v) => (Ok v, notified listener o name v st)
  | Ok (None, v) => (Ok v, st)
  | Raise e => (Raise e, st)
  | Diverge => (Diverge, st)
  | Unmodelled => (Unmodelled, st)
  end.

(** The answer of [name in x] that goes with an outcome of [x[name]]. *)
Definition membership {A} (r : res A) : res bool :=
  match r with
  | Ok _ => Ok true
  | Raise (KeyError _) => Ok false
  | Raise e => Raise e
  | Diverge => Diverge
  | Unmodelled => Unmodelled
  end.

(** A region of the hierarchy that [parent] never leaves: every location
    of [region] holds an owner object that passes [test] and whose parent
    is again in [region]. *)
Definition parent_closed (h : gmap loc object)
  (test : gmap string value -> (string -> bool) -> bool) (region : list loc) : bool :=
  forallb
    (fun l =>
       match h !! l with
       | Some (OInst attrs accepts) =>
           test attrs accepts &&
           match attrs !! "parent" with
           | Some (VRef p) => bool_decide (p ∈ region)
           | _ => false
           end
       | _ => false
       end)
    region.

(** The owner does not hold the attribute; the owner rejects the write. *)
Definition lacks (name : string) (attrs : gmap string value) (_ : string -> bool)
  : bool :=
  bool_decide (attrs !! name = None).

Definition rejects (name : string) (_ : gmap string value) (accepts : string -> bool)
  : bool :=
  negb (accepts name).

(** ** More hierarchies *)
Module Cases.

(** Two owners that are each other's parent, a scope and an accessor on
    the first; [k] is held by neither and accepted by neither. *)
Definition ping : loc := 1%positive.
Definition pong : loc := 2%positive.
Definition empty_dict : loc := 3%positive.
Definition globals : loc := 4%positive.
Definition scope : loc := 5%positive.
Definition nonlocals : loc := 6%positive.

Definition scope_inst : DynamicScope_inst :=
  MkDynamicScope (VRef ping) (VRef empty_dict) (VRef empty_dict) (VRef globals) VNone.

Definition nonlocals_inst : Nonlocals_inst := MkNonlocals (VRef ping) VNone.

Definition cyclic : state :=
  MkState
    (list_to_map
       [ (ping, OInst (list_to_map [("parent", VRef pong)]) (Scenario.declared []));
         (pong, OInst (list_to_map [("parent", VRef ping)]) (Scenario.declared []));
         (empty_dict, ODict ∅);
         (globals, ODict (list_to_map [("__builtins__", VRef empty_dict)]));
         (scope, OScope scope_inst);
         (nonlocals, ONonlocals nonlocals_inst) ])
    [].

(** The scenario of the specification, with globals that lack the key
    [__builtins__]. *)
Definition bare_globals : loc := 11%positive.

Definition bare_inst : DynamicScope_inst :=
  MkDynamicScope (VRef Scenario.leaf) (VRef Scenario.identifiers)
                 (VRef Scenario.overrides) (VRef bare_globals)
                 (VRef Scenario.listener).

Definition bare_scope : loc := 12%positive.

Definition bare : state :=
  MkState (<[bare_scope := OScope bare_inst]>
             (<[bare_globals := ODict (list_to_map [("b", VInt 2)])]> Scenario.objects))
          [].

(** The scenario of the specification where Root also holds [_obj]. *)
Definition with_obj : state :=
  MkState (<[Scenario.root :=
               OInst (list_to_map [("parent", VNone); ("z", VInt 0); ("_obj", VInt 9)])
                     (Scenario.declared ["z"])]> Scenario.objects)
          [].

(** The scenario of the specification where Leaf holds [c] too, as an
    attribute that cannot be written. *)
Definition shadowed : state :=
  MkState (<[Scenario.leaf :=
               OInst (list_to_map [("parent", VRef Scenario.mid); ("y", VInt 10);
                                   ("c", VInt 1)])
                     (Scenario.declared ["y"])]> Scenario.objects)
          [].

End Cases.

(** * The workbench

    [enaml/workbench/workbench.py].  The class [Workbench] keeps two
    dicts, the manifests and the plugins by plugin id, and passes
    everything else to collaborators whose code is elsewhere: the
    manifest parser, the extension registry, the import system, the
    plugin and extension objects, [warnings].  What these do is not
    modelled: every call to one of them is an entry in a log, and the
    facts about them that [Workbench] branches on are parameters.  Their
    methods are taken to return, and not to come back into the
    workbench. *)
Module Workbench.

(** The character of the string ["."]. *)
Definition dot : Ascii.ascii :=
  match "." with
  | String c _ => c
  | EmptyString => Ascii.zero
  end.

(** [u'.' in path] *)
Fixpoint contains_dot (path : string) : bool :=
  match path with
  | EmptyString => false
  | String c rest => Ascii.eqb c dot || contains_dot rest
  end.

(** [path.rsplit(u'.', 1)], for a path that contains a dot: the text
    before the last dot and the text after it. *)
Fixpoint rsplit_dot (path : string) : option (string * string) :=
  match path with
  | EmptyString => None
  | String c rest =>
      match rsplit_dot rest with
      | Some (before, item) => Some (String c before, item)
      | None => if Ascii.eqb c dot then Some (EmptyString, rest) else None
      end
  end.

(** An extension, through the two attributes [Workbench] reads:
    [extension.plugin_id] and [extension.cls]. *)
Record Extension : Type := MkExtension {
  plugin_id : string;
  extension_cls : string
}.

(** What an import gives: the module [__import__(path)] returns, or an
    attribute of a module. *)
Inductive imported : Type :=
  | Module_ (name : string)
  | Attribute (module item : string).

(** An object made by calling an imported class, or by [Plugin()]
    ([made_by = None]); [serial] tells the objects apart. *)
Record instance : Type := MkInstance {
  made_by : option (string * string);
  serial : nat
}.

Inductive warning : Type :=
  | AlreadyRegistered (plugin_id : string)
  | NotRegistered (plugin_id : string)
  | ManifestNotRegistered (plugin_id : string)
  | PluginImportFailed (path : string)
  | NonPlugin (path : string)
  | ExtensionImportFailed (path : string)
  | NonExtensionObject (path : string).

Inductive error : Type :=
  | ManifestError
  | TypeError_
  | ValueError_.

Inductive outcome (A : Type) : Type :=
  | Return (a : A)
  | Throw (e : error).
Arguments Return {A} a.
Arguments Throw {A} e.

(** How an import ends: with what was imported, with [ImportError], or
    with another exception, which the clauses [except ImportError] let
    through. *)
Inductive import_result (A : Type) : Type :=
  | Imported (a : A)
  | ImportError_
  | Raised (e : error).
Arguments Imported {A} a.
Arguments ImportError_ {A}.
Arguments Raised {A} e.

Section Collaborators.

(** The extension points of a manifest are handed to the registry as
    they are. *)
Context (ExtensionPoint : Type).

(** A plugin manifest, through the attributes [Workbench] reads. *)
Record PluginManifest : Type := MkManifest {
  id : string;
  cls : string;
  extension_points : list ExtensionPoint;
  extensions : list Extension
}.

(** The calls to the collaborators. *)
Inductive event : Type :=
  | Warn (w : warning)
  | AddExtensionPoints (points : list ExtensionPoint)
  | AddExtensions (exts : list Extension)
  | RemoveExtensions (exts : list Extension)
  | RemoveExtensionPoints (points : list ExtensionPoint)
  | Stop (plugin : instance)
  | Start (plugin : instance)
  | SetWorkbench (obj : instance) (attached : bool)
  | SetManifest (plugin : instance) (manifest : option PluginManifest)
  | SetExtension (obj : instance) (extension : Extension)
  | Initialize (obj : instance).

(** A workbench: [_manifests], [_plugins] (a plugin id may be bound to
    [None]), the number of objects made so far, and the log. *)
Record t : Type := MkWorkbench {
  _manifests : gmap string PluginManifest;
  _plugins : gmap string (option instance);
  made : nat;
  calls : list event
}.

(** [create_manifest(data)]; [None] when it raises. *)
Context (create_manifest : string -> option PluginManifest).
(** What importing the module of a name that is not empty does. *)
Context (load_module : string -> import_result unit).
(** [getattr(mod, item)] succeeds. *)
Context (has_attr : string -> string -> bool).
(** The attribute can be called. *)
Context (is_callable : string -> string -> bool).
(** The object the call returns is an instance of [Plugin]; of
    [ExtensionObject]. *)
Context (makes_Plugin : string -> string -> bool).
Context (makes_ExtensionObject : string -> string -> bool).

Definition W (A : Type) : Type := t -> outcome A * t.

Definition unit_ {A} (a : A) : W A := fun wb => (Return a, wb).
Definition throw {A} (e : error) : W A := fun wb => (Throw e, wb).

Definition then_ {A B} (m : W A) (k : A -> W B) : W B :=
  fun wb =>
    match m wb with
    | (Return a, wb') => k a wb'
    | (Throw e, wb') => (Throw e, wb')
    end.

Notation "'do!' x ':=' m 'in' k" := (then_ m (fun x => k))
  (at level 10, x name, m at level 100, k at level 200).

Definition emit (e : event) : W unit :=
  fun wb => (Return tt, MkWorkbench (_manifests wb) (_plugins wb) (made wb)
                                    (calls wb ++ [e])).

(** [warnings.warn(msg)] *)
Definition warn (w : warning) : W unit := emit (Warn w).

Definition manifests_get (plugin_id : string) : W (option PluginManifest) :=
  fun wb => (Return (_manifests wb !! plugin_id), wb).

Definition manifests_set (plugin_id : string) (m : PluginManifest) : W unit :=
  fun wb => (Return tt, MkWorkbench (<[plugin_id := m]> (_manifests wb)) (_plugins wb)
                                    (made wb) (calls wb)).

(** [self._manifests.pop(plugin_id, None)] *)
Definition manifests_pop (plugin_id : string) : W (option PluginManifest) :=
  fun wb => (Return (_manifests wb !! plugin_id),
             MkWorkbench (delete plugin_id (_manifests wb)) (_plugins wb)
                         (made wb) (calls wb)).

Definition plugins_get (plugin_id : string) : W (option (option instance)) :=
  fun wb => (Return (_plugins wb !! plugin_id), wb).

Definition plugins_set (plugin_id : string) (p : option instance) : W unit :=
  fun wb => (Return tt, MkWorkbench (_manifests wb) (<[plugin_id := p]> (_plugins wb))
                                    (made wb) (calls wb)).

(** [self._plugins.pop(plugin_id, None)]: a plugin id bound to [None]
    and one that is not bound give [None] alike. *)
Definition plugins_pop (plugin_id : string) : W (option instance) :=
  fun wb => (Return (match _plugins wb !! plugin_id with
                     | Some p => p
                     | None => None
                     end),
             MkWorkbench (_manifests wb) (delete plugin_id (_plugins wb))
                         (made wb) (calls wb)).

(** A new object. *)
Definition make (by_ : option (string * string)) : W instance :=
  fun wb => (Return (MkInstance by_ (made wb)),
             MkWorkbench (_manifests wb) (_plugins wb) (S (made wb)) (calls wb)).

(** Calling what was imported: a module cannot be called. *)
Definition call (c : imported) : W instance :=
  match c with
  | Module_ _ => throw TypeError_
  | Attribute module item =>
      if is_callable module item then make (Some (module, item))
      else throw TypeError_
  end.

Definition isinstance_Plugin (obj : instance) : bool :=
  match made_by obj with
  | None => true
  | Some (module, item) => makes_Plugin module item
  end.

Definition isinstance_ExtensionObject (obj : instance) : bool :=
  match made_by obj with
  | None => false
  | Some (module, item) => makes_ExtensionObject module item
  end.

Definition register (data : string) : W unit :=
  match create_manifest data with
  | None => throw ManifestError
  | Some manifest =>
      let plugin_id := id manifest in
      do! known := manifests_get plugin_id in
      do! _ := (match known with
                | Some _ => warn (AlreadyRegistered plugin_id)
                | None => manifests_set plugin_id manifest
                end) in
      do! _ := emit (AddExtensionPoints (extension_points manifest)) in
      emit (AddExtensions (extensions manifest))
  end.

Definition unregister (plugin_id : string) : W unit :=
  do! manifest := manifests_pop plugin_id in
  match manifest with
  | None => warn (NotRegistered plugin_id)
  | Some manifest =>
      do! plugin := plugins_pop plugin_id in
      do! _ := (match plugin with
                | Some plugin =>
                    do! _ := emit (Stop plugin) in
                    do! _ := emit (SetWorkbench plugin false) in
                    emit (SetManifest plugin None)
                | None => unit_ tt
                end) in
      do! _ := emit (RemoveExtensions (extensions manifest)) in
      emit (RemoveExtensionPoints (extension_points manifest))
  end.

Definition get_manifest (plugin_id : string) : W (option PluginManifest) :=
  manifests_get plugin_id.

(** [__import__(name)] and [__import__(name, {}, {}, [item])], which
    give the module of that name: an empty module name raises
    [ValueError]. *)
Definition __import__ (name : string) : import_result imported :=
  if String.eqb name "" then Raised ValueError_
  else
    match load_module name with
    | Imported _ => Imported (Module_ name)
    | ImportError_ => ImportError_
    | Raised e => Raised e
    end.

(** A path with a dot always splits, so the last case of the [match] is
    never taken. *)
Definition _import_object (path : string) : import_result imported :=
  if negb (contains_dot path) then __import__ path
  else
    match rsplit_dot path with
    | Some (path, item) =>
        match __import__ path with
        | Imported _ =>
            if has_attr path item then Imported (Attribute path item)
            else ImportError_
        | ImportError_ => ImportError_
        | Raised e => Raised e
        end
    | None => ImportError_
    end.

Definition _create_plugin (manifest : PluginManifest) : W (option instance) :=
  let path := cls manifest in
  if String.eqb path "" then
    do! plugin := make None in unit_ (Some plugin)
  else
    match _import_object path with
    | ImportError_ => do! _ := warn (PluginImportFailed path) in unit_ None
    | Raised e => throw e
    | Imported plugin_cls =>
        do! plugin := call plugin_cls in
        if negb (isinstance_Plugin plugin) then
          do! _ := warn (NonPlugin path) in unit_ None
        else unit_ (Some plugin)
    end.

Definition _create_extension_object (extension : Extension) : W (option instance) :=
  let path := extension_cls extension in
  match _import_object path with
  | ImportError_ => do! _ := warn (ExtensionImportFailed path) in unit_ None
  | Raised e => throw e
  | Imported extension_class =>
      do! obj := call extension_class in
      if negb (isinstance_ExtensionObject obj) then
        do! _ := warn (NonExtensionObject path) in unit_ None
      else unit_ (Some obj)
  end.

Definition get_plugin (plugin_id : string) (force_create : bool)
  : W (option instance) :=
  do! bound := plugins_get plugin_id in
  match bound with
  | Some plugin => unit_ plugin
  | None =>
      do! manifest := manifests_get plugin_id in
      match manifest with
      | None => do! _ := warn (ManifestNotRegistered plugin_id) in unit_ None
      | Some manifest =>
          if negb force_create then unit_ None else
          do! plugin := _create_plugin manifest in
          do! _ := plugins_set plugin_id plugin in
          match plugin with
          | None => unit_ None
          | Some plugin =>
              do! _ := emit (SetManifest plugin (Some manifest)) in
              do! _ := emit (SetWorkbench plugin true) in
              do! _ := emit (Start plugin) in
              unit_ (Some plugin)
          end
      end
  end.

Definition create_extension_object (extension : Extension) : W (option instance) :=
  do! _ := get_plugin (plugin_id extension) true in
  do! obj := _create_extension_object extension in
  match obj with
  | None => unit_ None
  | Some obj =>
      do! _ := emit (SetWorkbench obj true) in
      do! _ := emit (SetExtension obj extension) in
      do! _ := emit (Initialize obj) in
      unit_ (Some obj)
  end.

End Collaborators.

Arguments MkManifest {ExtensionPoint}.
Arguments id {ExtensionPoint}.
Arguments cls {ExtensionPoint}.
Arguments extension_points {ExtensionPoint}.
Arguments extensions {ExtensionPoint}.
Arguments MkWorkbench {ExtensionPoint}.
Arguments _manifests {ExtensionPoint}.
Arguments _plugins {ExtensionPoint}.
Arguments made {ExtensionPoint}.
Arguments calls {ExtensionPoint}.
Arguments Warn {ExtensionPoint}.
Arguments AddExtensionPoints {ExtensionPoint}.
Arguments AddExtensions {ExtensionPoint}.
Arguments RemoveExtensions {ExtensionPoint}.
Arguments RemoveExtensionPoints {ExtensionPoint}.
Arguments Stop {ExtensionPoint}.
Arguments Start {ExtensionPoint}.
Arguments SetWorkbench {ExtensionPoint}.
Arguments SetManifest {ExtensionPoint}.
Arguments SetExtension {ExtensionPoint}.
Arguments Initialize {ExtensionPoint}.
Arguments register {ExtensionPoint}.
Arguments unregister {ExtensionPoint}.
Arguments get_manifest {ExtensionPoint}.
Arguments _create_plugin {ExtensionPoint}.
Arguments _create_extension_object {ExtensionPoint}.
Arguments get_plugin {ExtensionPoint}.
Arguments create_extension_object {ExtensionPoint}.

End Workbench.

(** ** A small application

    Manifests are written [id] or [id=class path]; the module [app.ui]
    has the plugin class [Editor], the extension class [Panel] and the
    function [helper], which makes neither; the module [broken] cannot be
    imported. *)
Module Studio.

Definition manifest_of (plugin_id path : string) : Workbench.PluginManifest string :=
  Workbench.MkManifest plugin_id path [String.append plugin_id ".point"]
    [Workbench.MkExtension plugin_id "app.ui.Panel"].

Definition create_manifest (data : string) : option (Workbench.PluginManifest string) :=
  if String.eqb data "" then None
  else if String.eqb data "core" then Some (manifest_of "core" "")
  else if String.eqb data "editor" then Some (manifest_of "editor" "app.ui.Editor")
  else if String.eqb data "helper" then Some (manifest_of "helper" "app.ui.helper")
  else if String.eqb data "ghost" then Some (manifest_of "ghost" "broken.Ghost")
  else Some (manifest_of data data).

Definition load_module (module : string) : Workbench.import_result unit :=
  if String.eqb module "app.ui" || String.eqb module "app"
  then Workbench.Imported tt
  else Workbench.ImportError_.

Definition has_attr (module item : string) : bool :=
  String.eqb module "app.ui" &&
  (String.eqb item "Editor" || String.eqb item "Panel" || String.eqb item "helper").

Definition is_callable (module item : string) : bool := true.

Definition makes_Plugin (module item : string) : bool := String.eqb item "Editor".

Definition makes_ExtensionObject (module item : string) : bool :=
  String.eqb item "Panel".

Definition empty : Workbench.t string := Workbench.MkWorkbench ∅ ∅ 0 [].

Definition register := Workbench.register create_manifest.

Definition get_plugin :=
  Workbench.get_plugin (ExtensionPoint := string)
    load_module has_attr is_callable makes_Plugin.

End Studio.

(** ** Basic facts *)

Section Walks.

Context (name : string).

Lemma scope_walk_find fuel self sc parent st :
  heap st !! self = Some (OScope sc) ->
  DynamicScope.getitem_walk fuel self name parent st
  = deliver (_listener sc) name (find_attr fuel (heap st) name parent) st.
Proof.
  intros Hself. revert parent.
  induction fuel as [|fuel IH]; intros parent; simpl.
  - by destruct (is_None parent).
  - destruct (is_None parent); [done|].
    unfold try_except_AttributeError, py_getattr, read at 1.
    destruct (getattr_in (heap st) parent name) as [v|[]| |]; simpl; try done.
    + unfold bind, DynamicScope.load, read. rewrite Hself. unfold notified.
      by destruct (is_None (_listener sc)).
    + unfold bind, read.
      destruct (getattr_in (heap st) parent "parent") as [p| | |]; simpl; done.
Qed.

Lemma nonlocals_walk_find fuel self nl parent st :
  heap st !! self = Some (ONonlocals nl) ->
  Nonlocals.getitem_walk fuel self name parent st
  = deliver (_nls_listener nl) name (find_attr fuel (heap st) name parent) st.
Proof.
  intros Hself. revert parent.
  induction fuel as [|fuel IH]; intros parent; simpl.
  - by destruct (is_None parent).
  - destruct (is_None parent); [done|].
    unfold try_except_AttributeError, py_getattr, read at 1.
    destruct (getattr_in (heap st) parent name) as [v|[]| |]; simpl; try done.
    + unfold bind, Nonlocals.load, read. rewrite Hself. unfold notified.
      by destruct (is_None (_nls_listener nl)).
    + unfold bind, read.
      destruct (getattr_in (heap st) parent "parent") as [p| | |]; simpl; done.
Qed.

End Walks.

Section Chains.

Context (h : gmap loc object).

Lemma chain_nil_inv v : chain h v [] = true -> v = VNone.
Proof. by destruct v. Qed.

Lemma chain_cons_inv v l nodes :
  chain h v (l :: nodes) = true ->
  v = VRef l /\
  exists attrs accepts p,
    h !! l = Some (OInst attrs accepts) /\
    attrs !! "parent" = Some p /\
    chain h p nodes = true.
Proof.
  destruct v as [| | | |l']; simpl; try done.
  intros [Heq Hrest]%andb_prop.
  apply bool_decide_eq_true in Heq as ->.
  split; [done|].
  destruct (h !! l) as [[d|attrs accepts|sc|nl]|]; try done.
  destruct (attrs !! "parent") as [p|] eqn:Hp; try done.
  by exists attrs, accepts, p.
Qed.

Lemma chain_attr_at v l nodes name :
  chain h v (l :: nodes) = true ->
  getattr_in h v name
  = match attr_at h l name with Some x => Ok x | None => Raise AttributeError end.
Proof.
  intros (-> & attrs & accepts & p & Hl & _ & _)%chain_cons_inv.
  unfold attr_at. simpl. by rewrite Hl.
Qed.

Lemma chain_parent v l nodes :
  chain h v (l :: nodes) = true ->
  exists p, getattr_in h v "parent" = Ok p /\ chain h p nodes = true.
Proof.
  intros (-> & attrs & accepts & p & Hl & Hp & Hch)%chain_cons_inv.
  exists p. simpl. by rewrite Hl, Hp.
Qed.

(** On a chain, the search is the hierarchy walk of the specification,
    as soon as the fuel covers the length of the chain. *)
Lemma find_attr_chain name nodes : forall fuel v,
  chain h v nodes = true ->
  (length nodes <= fuel)%nat ->
  find_attr fuel h name v
  = match first_holder h name nodes with
    | Some (l, x) => Ok (VRef l, x)
    | None => Raise (KeyError name)
    end.
Proof.
  induction nodes as [|l nodes IH]; intros fuel v Hch Hfuel.
  - apply chain_nil_inv in Hch as ->. by destruct fuel.
  - destruct fuel as [|fuel]; [simpl in Hfuel; lia|].
    pose proof (chain_attr_at _ _ _ name Hch) as Hget.
    destruct (chain_parent _ _ _ Hch) as (p & Hp & Hch').
    apply chain_cons_inv in Hch as [-> _].
    cbn [find_attr is_None first_holder]. rewrite Hget.
    destruct (attr_at h l name) as [x|]; [done|].
    rewrite Hp. apply IH; [done|]. simpl in Hfuel. lia.
Qed.

(** The chain from a value is unique. *)
Lemma chain_functional nodes1 : forall v nodes2,
  chain h v nodes1 = true -> chain h v nodes2 = true -> nodes1 = nodes2.
Proof.
  induction nodes1 as [|l nodes1 IH]; intros v nodes2 H1 H2.
  - apply chain_nil_inv in H1 as ->. by destruct nodes2.
  - apply chain_cons_inv in H1 as (-> & a1 & c1 & p1 & Hl1 & Hp1 & Hch1).
    destruct nodes2 as [|l2 nodes2]; [done|].
    apply chain_cons_inv in H2 as (Heq & a2 & c2 & p2 & Hl2 & Hp2 & Hch2).
    injection Heq as <-. rewrite Hl1 in Hl2. injection Hl2 as <- <-.
    rewrite Hp1 in Hp2. injection Hp2 as <-.
    f_equal. by eapply IH.
Qed.

End Chains.

Section Tiers.

Lemma dict_at_contains h v d name :
  dict_at h v = Some d ->
  contains_in h v name = Ok (bool_decide (is_Some (d !! name))).
Proof.
  destruct v as [| | | |l]; simpl; try done.
  destruct (h !! l) as [[]|]; try done. by intros [= ->].
Qed.

Lemma dict_at_getitem h v d name :
  dict_at h v = Some d ->
  getitem_in h v name
  = match d !! name with Some x => Ok x | None => Raise (KeyError name) end.
Proof.
  destruct v as [| | | |l]; simpl; try done.
  destruct (h !! l) as [[]|]; try done. by intros [= ->].
Qed.

Lemma tiers_of_inv h sc t :
  tiers_of h sc = Some t ->
  dict_at h (_overrides sc) = Some (t_overrides t) /\
  dict_at h (_identifiers sc) = Some (t_identifiers t) /\
  dict_at h (_f_globals sc) = Some (t_globals t) /\
  exists b, t_globals t !! "__builtins__" = Some b /\
            dict_at h b = Some (t_builtins t).
Proof.
  unfold tiers_of.
  destruct (dict_at h (_overrides sc)) as [dO|]; [|done].
  destruct (dict_at h (_identifiers sc)) as [dI|]; [|done].
  destruct (dict_at h (_f_globals sc)) as [dG|]; [|done].
  destruct (dG !! "__builtins__") as [b|] eqn:Hb; [|done].
  destruct (dict_at h b) as [dB|] eqn:HdB; [|done].
  intros [= <-]. simpl. eauto 10.
Qed.

(** [__getitem__] on a scope whose four tiers are mappings: the tier
    lookup, then the walk. *)
Lemma scope_getitem_tiers fuel self sc t name st :
  heap st !! self = Some (OScope sc) ->
  tiers_of (heap st) sc = Some t ->
  DynamicScope.__getitem__ fuel self name st
  = match tier_lookup t name with
    | Some v => (Ok v, st)
    | None => DynamicScope.getitem_walk fuel self name (_obj sc) st
    end.
Proof.
  intros Hself (HO & HI & HG & b & Hb & HB)%tiers_of_inv.
  unfold DynamicScope.__getitem__, tier_lookup.
  unfold bind at 1. unfold DynamicScope.load, read at 1. rewrite Hself.
  unfold bind at 1. unfold py_contains, read at 1.
  rewrite (dict_at_contains _ _ _ name HO).
  destruct (t_overrides t !! name) as [x|] eqn:Ho; simpl.
  { unfold py_getitem, read. by rewrite (dict_at_getitem _ _ _ name HO), Ho. }
  unfold bind at 1. unfold read at 1.
  rewrite (dict_at_contains _ _ _ name HI).
  destruct (t_identifiers t !! name) as [x|] eqn:Hi; simpl.
  { unfold py_getitem, read. by rewrite (dict_at_getitem _ _ _ name HI), Hi. }
  unfold bind at 1. unfold read at 1.
  rewrite (dict_at_contains _ _ _ name HG).
  destruct (t_globals t !! name) as [x|] eqn:Hg; simpl.
  { unfold py_getitem, read. by rewrite (dict_at_getitem _ _ _ name HG), Hg. }
  unfold bind at 1. unfold py_getitem at 1, read at 1.
  rewrite (dict_at_getitem _ _ _ "__builtins__" HG), Hb.
  unfold bind at 1. unfold read at 1.
  rewrite (dict_at_contains _ _ _ name HB).
  destruct (t_builtins t !! name) as [x|] eqn:Hbn; simpl.
  { unfold py_getitem, read. by rewrite (dict_at_getitem _ _ _ name HB), Hbn. }
  done.
Qed.

End Tiers.

(** ** Precedence of the tiers *)

(** C1.  [DynamicScope.__getitem__] follows the fixed precedence order.
    For a scope whose overrides, identifiers and globals are mappings and
    whose globals hold the builtins mapping under [__builtins__], and for
    every name: a key of overrides yields the overrides value; otherwise a
    key of identifiers yields that value; otherwise a key of globals;
    otherwise a key of the builtins; otherwise the result is the one of
    the hierarchy walk from the owner, which on a chain of owners is the
    value of the first owner holding the attribute (with its
    notification), or [KeyError].  A name bound in several tiers thus
    resolves in the first of them. *)
Theorem C1_resolve_precedence fuel self sc t name st :
  heap st !! self = Some (OScope sc) ->
  tiers_of (heap st) sc = Some t ->
  let r := DynamicScope.__getitem__ fuel self name st in
  (forall v, t_overrides t !! name = Some v -> r = (Ok v, st)) /\
  (forall v, t_overrides t !! name = None ->
             t_identifiers t !! name = Some v -> r = (Ok v, st)) /\
  (forall v, t_overrides t !! name = None ->
             t_identifiers t !! name = None ->
             t_globals t !! name = Some v -> r = (Ok v, st)) /\
  (forall v, t_overrides t !! name = None ->
             t_identifiers t !! name = None ->
             t_globals t !! name = None ->
             t_builtins t !! name = Some v -> r = (Ok v, st)) /\
  (t_overrides t !! name = None ->
   t_identifiers t !! name = None ->
   t_globals t !! name = None ->
   t_builtins t !! name = None ->
   r = DynamicScope.getitem_walk fuel self name (_obj sc) st /\
   forall nodes,
     chain (heap st) (_obj sc) nodes = true ->
     (length nodes <= fuel)%nat ->
     r = match first_holder (heap st) name nodes with
         | Some (l, v) => (Ok v, notified (_listener sc) (VRef l) name v st)
         | None => (Raise (KeyError name), st)
         end).
Proof.
  intros Hself Ht r. subst r.
  rewrite (scope_getitem_tiers _ _ _ _ _ _ Hself Ht). unfold tier_lookup.
  refine (conj _ (conj _ (conj _ (conj _ _)))).
  - by intros v ->.
  - by intros v -> ->.
  - by intros v -> -> ->.
  - by intros v -> -> -> ->.
  - intros -> -> -> ->. split; [done|]. intros nodes Hch Hfuel.
    rewrite (scope_walk_find _ _ _ _ _ _ Hself).
    rewrite (find_attr_chain _ _ _ _ _ Hch Hfuel).
    by destruct (first_holder (heap st) name nodes) as [[l v]|].
Qed.

(** In the scenario, [b] is bound in the globals only. *)
Lemma C1_resolve_precedence_witness :
  heap Scenario.st0 !! Scenario.scope = Some (OScope Scenario.scope_inst) /\
  DynamicScope.__getitem__ 3 Scenario.scope "b" Scenario.st0
  = (Ok (VInt 2), Scenario.st0).
Proof.
  split; [reflexivity|].
  destruct (C1_resolve_precedence 3 Scenario.scope Scenario.scope_inst
              Scenario.tiers0 "b" Scenario.st0) as (_ & _ & H & _).
  - reflexivity.
  - vm_compute. reflexivity.
  - apply H; reflexivity.
Defined.

(** ** Levels *)

Section Levels.

Lemma bind_read {A B} (f : gmap loc object -> res A) (k : A -> M B) st :
  bind (read f) k st
  = match f (heap st) with
    | Ok a => k a st
    | Raise e => (Raise e, st)
    | Diverge => (Diverge, st)
    | Unmodelled => (Unmodelled, st)
    end.
Proof. unfold bind, read. by destruct (f (heap st)). Qed.

Lemma hop_cons l nodes k : hop (l :: nodes) (S k) = hop nodes k.
Proof. reflexivity. Qed.

Lemma hop_length nodes : hop nodes (length nodes) = VNone.
Proof. unfold hop. by rewrite (lookup_ge_None_2 nodes (length nodes)). Qed.

(** The loop of [__call__] on a chain: it stops after [level - offset]
    hops, or on the absent parent if that comes first. *)
Lemma call_walk_chain st level nodes : forall fuel target offset,
  chain (heap st) target nodes = true ->
  offset <= level ->
  (Z.to_nat (level - offset) <= fuel)%nat ->
  Nonlocals.call_walk fuel level target offset st
  = if decide (Z.to_nat (level - offset) <= length nodes)%nat
    then (Ok (hop nodes (Z.to_nat (level - offset)), level), st)
    else (Ok (VNone, offset + Z.of_nat (length nodes)), st).
Proof.
  induction nodes as [|l nodes IH]; intros fuel target offset Hch Hle Hfuel.
  - apply chain_nil_inv in Hch as ->.
    destruct fuel; simpl; unfold ret; case_decide; try (f_equal; f_equal; f_equal; lia).
    all: replace (Z.to_nat (level - offset)) with 0%nat by lia.
    all: f_equal; f_equal; f_equal; lia.
  - destruct (chain_parent _ _ _ _ Hch) as (p & Hp & Hch').
    apply chain_cons_inv in Hch as [-> _].
    destruct (Z.eqb_spec offset level) as [->|Hne].
    + replace (Z.to_nat (level - level)) with 0%nat by lia.
      rewrite decide_True by (simpl; lia).
      destruct fuel; simpl; by rewrite Z.eqb_refl.
    + destruct fuel as [|fuel]; [lia|].
      cbn [Nonlocals.call_walk is_None negb andb].
      apply Z.eqb_neq in Hne as Hne'. rewrite Hne'. cbn [negb].
      unfold py_getattr. rewrite bind_read, Hp.
      rewrite IH by (try done; lia).
      replace (Z.to_nat (level - offset)) with (S (Z.to_nat (level - (offset + 1))))
        by lia.
      rewrite hop_cons. cbn [length].
      destruct (decide (Z.to_nat (level - (offset + 1)) <= length nodes)%nat).
      * by rewrite decide_True by lia.
      * rewrite decide_False by lia. f_equal. f_equal. f_equal. lia.
Qed.

Lemma getattr_in_terminates h o name : getattr_in h o name <> Diverge.
Proof.
  destruct o as [| | | |l]; try done. simpl.
  destruct (h !! l) as [[d|attrs accepts|sc|nl]|]; try done.
  by destruct (attrs !! name).
Qed.

(** The fuel [__call__] gives its loop is enough on every heap. *)
Lemma call_walk_terminates level : forall fuel target offset st,
  offset <= level ->
  (Z.to_nat (level - offset) <= fuel)%nat ->
  fst (Nonlocals.call_walk fuel level target offset st) <> Diverge.
Proof.
  induction fuel as [|fuel IH]; intros target offset st Hle Hfuel; simpl.
  - replace offset with level by lia. rewrite Z.eqb_refl. cbn [negb].
    by rewrite andb_false_r.
  - destruct (negb (is_None target) && negb (offset =? level)%Z) eqn:Hgo; [|done].
    apply andb_prop in Hgo as [_ Hne]. apply negb_true_iff, Z.eqb_neq in Hne.
    unfold py_getattr. rewrite bind_read.
    pose proof (getattr_in_terminates (heap st) target "parent") as Hget.
    destruct (getattr_in (heap st) target "parent"); try done.
    apply IH; lia.
Qed.

(** [__call__] on an accessor anchored on a chain. *)
Lemma nonlocals_call_chain self nl nodes level st :
  heap st !! self = Some (ONonlocals nl) ->
  chain (heap st) (_nls_obj nl) nodes = true ->
  Nonlocals.__call__ self level st
  = match isinstance_int level with
    | None => (Raise ValueError, st)
    | Some n =>
        if decide (0 <= n <= Z.of_nat (length nodes))
        then alloc (ONonlocals (MkNonlocals (hop nodes (Z.to_nat n))
                                            (_nls_listener nl))) st
        else (Raise ValueError, st)
    end.
Proof.
  intros Hself Hch. unfold Nonlocals.__call__.
  destruct (isinstance_int level) as [n|]; [|done].
  destruct (Z.ltb_spec n 0) as [Hneg|Hpos].
  { by rewrite decide_False by lia. }
  unfold Nonlocals.load. rewrite bind_read, Hself.
  unfold bind at 1.
  rewrite (call_walk_chain st n nodes) by (try done; lia).
  rewrite Z.sub_0_r.
  destruct (decide (Z.to_nat n <= length nodes)%nat) as [Hin|Hout].
  - rewrite decide_True by lia. rewrite Z.eqb_refl. cbn [negb].
    by rewrite bind_read, Hself.
  - rewrite decide_False by lia.
    destruct (Z.eqb_spec (0 + Z.of_nat (length nodes)) n) as [Heq|Hne]; [lia|done].
Qed.

End Levels.




(** ** The observer *)

(** C3.  Observer discipline of [DynamicScope.__getitem__].  A name found
    in the overrides, identifiers, globals or builtins is returned with
    the state untouched: nothing is added to the log of listener calls.
    A name in none of the four tiers and first found on the owner [l] of
    the chain is returned after exactly one call
    [dynamic_load(l, name, value)] has been appended to the log when the
    scope has a listener, and after none when it has not; the heap is
    unchanged. *)
Theorem C3_observer_discipline fuel self sc t name st :
  heap st !! self = Some (OScope sc) ->
  tiers_of (heap st) sc = Some t ->
  let r := DynamicScope.__getitem__ fuel self name st in
  (is_Some (t_overrides t !! name) \/ is_Some (t_identifiers t !! name) \/
   is_Some (t_globals t !! name) \/ is_Some (t_builtins t !! name) ->
   exists v, r = (Ok v, st) /\ trace (snd r) = trace st) /\
  (forall nodes l v,
     t_overrides t !! name = None ->
     t_identifiers t !! name = None ->
     t_globals t !! name = None ->
     t_builtins t !! name = None ->
     chain (heap st) (_obj sc) nodes = true ->
     (length nodes <= fuel)%nat ->
     first_holder (heap st) name nodes = Some (l, v) ->
     fst r = Ok v /\
     heap (snd r) = heap st /\
     trace (snd r)
     = if is_None (_listener sc) then trace st
       else trace st ++ [DynamicLoad (_listener sc) (VRef l) name v]).
Proof.
  intros Hself Ht r. subst r.
  rewrite (scope_getitem_tiers _ _ _ _ _ _ Hself Ht). unfold tier_lookup.
  split.
  - intros Hin.
    destruct (t_overrides t !! name) as [v|]; [by exists v|].
    destruct (t_identifiers t !! name) as [v|]; [by exists v|].
    destruct (t_globals t !! name) as [v|]; [by exists v|].
    destruct (t_builtins t !! name) as [v|]; [by exists v|].
    by destruct Hin as [[? [=]]|[[? [=]]|[[? [=]]|[? [=]]]]].
  - intros nodes l v -> -> -> -> Hch Hfuel Hfirst.
    rewrite (scope_walk_find _ _ _ _ _ _ Hself).
    rewrite (find_attr_chain _ _ _ _ _ Hch Hfuel), Hfirst.
    unfold deliver, notified. by destruct (is_None (_listener sc)).
Qed.

(** In the scenario, [c] is found on Mid only, two owners up from Leaf. *)
Lemma C3_observer_discipline_witness :
  first_holder (heap Scenario.st0) "c" [Scenario.leaf; Scenario.mid; Scenario.root]
  = Some (Scenario.mid, VInt 3) /\
  trace (snd (DynamicScope.__getitem__ 3 Scenario.scope "c" Scenario.st0))
  = [DynamicLoad (VRef Scenario.listener) (VRef Scenario.mid) "c" (VInt 3)].
Proof.
  split; [reflexivity|].
  destruct (C3_observer_discipline 3 Scenario.scope Scenario.scope_inst
              Scenario.tiers0 "c" Scenario.st0) as (_ & H).
  - reflexivity.
  - vm_compute. reflexivity.
  - apply (H [Scenario.leaf; Scenario.mid; Scenario.root] Scenario.mid (VInt 3));
      solve [reflexivity | simpl; lia].
Defined.

(** ** Heaps that differ in scope and accessor objects only *)

Section SameData.

Context (h1 h2 : gmap loc object) (Hsame : same_data h1 h2).

Lemma same_data_dict_at v : dict_at h1 v = dict_at h2 v.
Proof. destruct v; try done. apply Hsame. Qed.

Lemma same_data_owner l : owner_view h1 l = owner_view h2 l.
Proof. apply Hsame. Qed.

Lemma same_data_getattr o name : getattr_in h1 o name = getattr_in h2 o name.
Proof.
  destruct o as [| | | |l]; try done.
  pose proof (same_data_owner l) as Ho. unfold owner_view in Ho. simpl.
  destruct (h1 !! l) as [[]|], (h2 !! l) as [[]|]; try done.
  by injection Ho as <- <-.
Qed.

Lemma same_data_attr_at l name : attr_at h1 l name = attr_at h2 l name.
Proof.
  pose proof (same_data_owner l) as Ho. unfold owner_view in Ho. unfold attr_at.
  destruct (h1 !! l) as [[]|], (h2 !! l) as [[]|]; try done.
  by injection Ho as <- <-.
Qed.

Lemma same_data_find_attr fuel name : forall parent,
  find_attr fuel h1 name parent = find_attr fuel h2 name parent.
Proof.
  induction fuel as [|fuel IH]; intros parent; [done|].
  cbn [find_attr]. rewrite !(same_data_getattr parent).
  destruct (is_None parent); [done|].
  destruct (getattr_in h2 parent name) as [|[]| |]; try done.
  destruct (getattr_in h2 parent "parent"); try done.
Qed.

Lemma same_data_chain nodes : forall v, chain h1 v nodes = chain h2 v nodes.
Proof.
  induction nodes as [|l nodes IH]; intros v; [done|].
  destruct v as [| | | |l']; try done. cbn [chain].
  pose proof (same_data_owner l) as Ho. unfold owner_view in Ho.
  destruct (h1 !! l) as [[]|], (h2 !! l) as [[]|]; try done.
  injection Ho as <- <-. by destruct (attrs !! "parent"); rewrite ?IH.
Qed.

Lemma same_data_first_holder name nodes :
  first_holder h1 name nodes = first_holder h2 name nodes.
Proof.
  induction nodes as [|l nodes IH]; [done|].
  cbn [first_holder]. by rewrite same_data_attr_at, IH.
Qed.

Lemma same_data_tiers_of sc1 sc2 :
  _overrides sc1 = _overrides sc2 ->
  _identifiers sc1 = _identifiers sc2 ->
  _f_globals sc1 = _f_globals sc2 ->
  tiers_of h1 sc1 = tiers_of h2 sc2.
Proof.
  intros HO HI HG. unfold tiers_of.
  rewrite HO, HI, HG, !same_data_dict_at.
  destruct (dict_at h2 (_overrides sc2)), (dict_at h2 (_identifiers sc2)),
    (dict_at h2 (_f_globals sc2)) as [dG|]; try done.
  destruct (dG !! "__builtins__"); [|done]. by rewrite same_data_dict_at.
Qed.

End SameData.

Lemma same_data_insert h l o :
  no_data (h !! l) = true ->
  no_data (Some o) = true ->
  same_data h (<[l := o]> h).
Proof.
  intros Hold Hnew l'. unfold owner_view, dict_at.
  destruct (decide (l = l')) as [<-|Hne].
  - rewrite lookup_insert_eq.
    destruct (h !! l) as [[]|], o; done.
  - by rewrite lookup_insert_ne.
Qed.

(** ** Membership tests *)

Section Contains.

Lemma deliver_silent name r st : snd (deliver VNone name r st) = st.
Proof. by destruct r as [[o v]| | |]. Qed.

Lemma deliver_fst lst name r st :
  fst (deliver lst name r st)
  = match r with
    | Ok (_, v) => Ok v
    | Raise e => Raise e
    | Diverge => Diverge
    | Unmodelled => Unmodelled
    end.
Proof. by destruct r as [[o v]| | |]. Qed.

(** Without a listener, [DynamicScope.__getitem__] leaves the state as
    it is, whatever it finds. *)
Lemma scope_getitem_silent fuel self sc name st :
  heap st !! self = Some (OScope sc) ->
  _listener sc = VNone ->
  snd (DynamicScope.__getitem__ fuel self name st) = st.
Proof.
  intros Hself Hl.
  unfold DynamicScope.__getitem__, DynamicScope.load, py_contains, py_getitem.
  rewrite bind_read, Hself.
  repeat (rewrite bind_read;
          match goal with
          | |- context [match ?x with _ => _ end] => destruct x as [[]| | |]
          end; try done).
  rewrite (scope_walk_find _ _ _ _ _ _ Hself), Hl. apply deliver_silent.
Qed.

Lemma unmute_scope self sc st :
  heap st !! self = Some (OScope sc) ->
  DynamicScope.store_listener self (_listener sc) (muted_scope self sc st)
  = (Ok tt, st).
Proof.
  intros Hself. unfold DynamicScope.store_listener, muted_scope. simpl.
  rewrite lookup_insert_eq. simpl. rewrite insert_insert_eq.
  destruct st as [h tr], sc. simpl in *. by rewrite insert_id.
Qed.

(** [DynamicScope.__contains__] on a string: the lookup runs on the
    scope with its listener rebound to [None]; when it returns, the
    listener is back in place. *)
Lemma scope_contains_str fuel self sc name st :
  heap st !! self = Some (OScope sc) ->
  DynamicScope.__contains__ fuel self (VStr name) st
  = contains_outcome
      (fst (DynamicScope.__getitem__ fuel self name (muted_scope self sc st)))
      st (muted_scope self sc st).
Proof.
  intros Hself. unfold DynamicScope.__contains__. cbn [isinstance_basestring].
  unfold DynamicScope.load at 1. rewrite bind_read, Hself.
  unfold bind at 1. unfold DynamicScope.store_listener at 1. rewrite Hself.
  fold (muted_scope self sc st).
  assert (heap (muted_scope self sc st) !! self
          = Some (OScope (MkDynamicScope (_obj sc) (_identifiers sc) (_overrides sc)
                                         (_f_globals sc) VNone))) as Hm.
  { unfold muted_scope. simpl. by rewrite lookup_insert_eq. }
  pose proof (scope_getitem_silent fuel self _ name _ Hm eq_refl) as Hsilent.
  unfold try_finally, try_except_KeyError.
  destruct (DynamicScope.__getitem__ fuel self name (muted_scope self sc st))
    as [r st1]. simpl in Hsilent. subst st1.
  destruct r as [v|[]| |]; simpl; unfold bind, ret, raise;
    try rewrite (unmute_scope _ _ _ Hself); done.
Qed.

End Contains.

Section NonlocalsContains.

Lemma muted_nonlocals_same_data self nl st :
  heap st !! self = Some (ONonlocals nl) ->
  same_data (heap st) (heap (muted_nonlocals self nl st)).
Proof. intros Hself. apply same_data_insert; by rewrite ?Hself. Qed.

Lemma muted_scope_same_data self sc st :
  heap st !! self = Some (OScope sc) ->
  same_data (heap st) (heap (muted_scope self sc st)).
Proof. intros Hself. apply same_data_insert; by rewrite ?Hself. Qed.

Lemma nonlocals_getitem_find fuel self nl name st :
  heap st !! self = Some (ONonlocals nl) ->
  Nonlocals.__getitem__ fuel self name st
  = deliver (_nls_listener nl) name (find_attr fuel (heap st) name (_nls_obj nl)) st.
Proof.
  intros Hself. unfold Nonlocals.__getitem__, Nonlocals.load.
  rewrite bind_read, Hself. by apply nonlocals_walk_find.
Qed.

Lemma setattr_listener depth fuel self nl v st :
  heap st !! self = Some (ONonlocals nl) ->
  Nonlocals.__setattr__ depth fuel self "_nls_listener" v st
  = (Ok tt, MkState (<[self := ONonlocals (MkNonlocals (_nls_obj nl) v)]> (heap st))
                    (trace st)).
Proof.
  intros Hself. unfold Nonlocals.__setattr__, Nonlocals.store_dict. simpl.
  by rewrite Hself.
Qed.

Lemma unmute_nonlocals depth fuel self nl st :
  heap st !! self = Some (ONonlocals nl) ->
  Nonlocals.__setattr__ depth fuel self "_nls_listener" (_nls_listener nl)
    (muted_nonlocals self nl st)
  = (Ok tt, st).
Proof.
  intros Hself.
  rewrite (setattr_listener _ _ _ (MkNonlocals (_nls_obj nl) VNone))
    by (unfold muted_nonlocals; simpl; by rewrite lookup_insert_eq).
  unfold muted_nonlocals. simpl. rewrite insert_insert_eq.
  destruct st as [h tr], nl. simpl in *. by rewrite insert_id.
Qed.

(** [Nonlocals.__contains__] on a string. *)
Lemma nonlocals_contains_str depth fuel self nl name st :
  heap st !! self = Some (ONonlocals nl) ->
  Nonlocals.__contains__ depth fuel self (VStr name) st
  = contains_outcome (find_attr fuel (heap st) name (_nls_obj nl))
      st (muted_nonlocals self nl st).
Proof.
  intros Hself. unfold Nonlocals.__contains__. cbn [isinstance_basestring].
  unfold Nonlocals.load at 1. rewrite bind_read, Hself.
  unfold bind at 1. rewrite (setattr_listener _ _ _ _ _ _ Hself).
  fold (muted_nonlocals self nl st).
  unfold try_finally, try_except_KeyError.
  rewrite (nonlocals_getitem_find _ _ (MkNonlocals (_nls_obj nl) VNone))
    by (unfold muted_nonlocals; simpl; by rewrite lookup_insert_eq).
  cbn [_nls_listener _nls_obj].
  rewrite <- (same_data_find_attr _ _ (muted_nonlocals_same_data _ _ _ Hself)).
  destruct (find_attr fuel (heap st) name (_nls_obj nl)) as [[o v]|[]| |];
    simpl; unfold bind, ret, raise;
    try rewrite (unmute_nonlocals _ _ _ _ _ Hself); done.
Qed.

Lemma contains_outcome_trace {A} (r : res A) st st' :
  trace st' = trace st ->
  trace (snd (contains_outcome r st st')) = trace st.
Proof. by destruct r as [?|[]| |]. Qed.

Lemma contains_outcome_returned {A} (r : res A) st st' :
  returned (fst (contains_outcome r st st')) ->
  snd (contains_outcome r st st') = st.
Proof. by destruct r as [?|[]| |]. Qed.

End NonlocalsContains.

Lemma scope_getitem_muted fuel self sc t name nodes st :
  heap st !! self = Some (OScope sc) ->
  tiers_of (heap st) sc = Some t ->
  chain (heap st) (_obj sc) nodes = true ->
  (length nodes <= fuel)%nat ->
  fst (DynamicScope.__getitem__ fuel self name (muted_scope self sc st))
  = match tier_lookup t name with
    | Some v => Ok v
    | None =>
        match first_holder (heap st) name nodes with
        | Some (_, v) => Ok v
        | None => Raise (KeyError name)
        end
    end.
Proof.
  intros Hself Ht Hch Hfuel.
  pose proof (muted_scope_same_data _ _ _ Hself) as Hsame.
  set (sc' := MkDynamicScope (_obj sc) (_identifiers sc) (_overrides sc)
                             (_f_globals sc) VNone).
  assert (heap (muted_scope self sc st) !! self = Some (OScope sc')) as Hm.
  { unfold muted_scope. simpl. by rewrite lookup_insert_eq. }
  assert (tiers_of (heap (muted_scope self sc st)) sc' = Some t) as Ht'.
  { by rewrite <- (same_data_tiers_of _ _ Hsame sc sc'). }
  rewrite (scope_getitem_tiers _ _ _ _ _ _ Hm Ht').
  destruct (tier_lookup t name) as [v|]; [done|].
  rewrite (scope_walk_find _ _ _ _ _ _ Hm), deliver_fst.
  rewrite <- (same_data_find_attr _ _ Hsame).
  rewrite (find_attr_chain _ _ _ _ _ Hch Hfuel).
  by destruct (first_holder (heap st) name nodes) as [[l v]|].
Qed.

(** C4.  The membership tests [DynamicScope.__contains__] and
    [Nonlocals.__contains__].  For every input, the log of listener calls
    after the test is the log before it, and once the test has returned,
    with an answer or with an exception, the whole state, the listener
    slot of the scope or accessor included, is what it was before.  A name that is not a string is answered
    [False] without any lookup.  A string bound in no tier and held by no
    owner of the chain is answered [False], not an error; one that a tier
    or an owner of the chain provides is answered [True]. *)
Theorem C4_contains_silent :
  (forall fuel self name st,
     trace (snd (DynamicScope.__contains__ fuel self name st)) = trace st /\
     (returned (fst (DynamicScope.__contains__ fuel self name st)) ->
      snd (DynamicScope.__contains__ fuel self name st) = st)) /\
  (forall fuel self name st,
     isinstance_basestring name = None ->
     DynamicScope.__contains__ fuel self name st = (Ok false, st)) /\
  (forall fuel self sc t name nodes st,
     heap st !! self = Some (OScope sc) ->
     tiers_of (heap st) sc = Some t ->
     chain (heap st) (_obj sc) nodes = true ->
     (length nodes <= fuel)%nat ->
     DynamicScope.__contains__ fuel self (VStr name) st
     = (Ok (bool_decide (is_Some (tier_lookup t name) \/
                         is_Some (first_holder (heap st) name nodes))), st)) /\
  (forall depth fuel self name st,
     trace (snd (Nonlocals.__contains__ depth fuel self name st)) = trace st /\
     (returned (fst (Nonlocals.__contains__ depth fuel self name st)) ->
      snd (Nonlocals.__contains__ depth fuel self name st) = st)) /\
  (forall depth fuel self name st,
     isinstance_basestring name = None ->
     Nonlocals.__contains__ depth fuel self name st = (Ok false, st)) /\
  (forall depth fuel self nl name nodes st,
     heap st !! self = Some (ONonlocals nl) ->
     chain (heap st) (_nls_obj nl) nodes = true ->
     (length nodes <= fuel)%nat ->
     Nonlocals.__contains__ depth fuel self (VStr name) st
     = (Ok (bool_decide (is_Some (first_holder (heap st) name nodes))), st)).
Proof.
  refine (conj _ (conj _ (conj _ (conj _ (conj _ _))))).
  - intros fuel self name st.
    destruct name as [| | |name|]; try done.
    destruct (heap st !! self) as [[d|a c|sc|nl]|] eqn:Hself;
      try (unfold DynamicScope.__contains__, DynamicScope.load; simpl;
           rewrite bind_read, Hself; done).
    rewrite (scope_contains_str _ _ _ _ _ Hself). split.
    + by apply contains_outcome_trace.
    + apply contains_outcome_returned.
  - intros fuel self name st Hname.
    unfold DynamicScope.__contains__. by rewrite Hname.
  - intros fuel self sc t name nodes st Hself Ht Hch Hfuel.
    rewrite (scope_contains_str _ _ _ _ _ Hself).
    rewrite (scope_getitem_muted _ _ _ _ _ _ _ Hself Ht Hch Hfuel).
    destruct (tier_lookup t name) as [v|]; cbn [contains_outcome].
    { rewrite bool_decide_eq_true_2; [done|]. left. by eexists. }
    destruct (first_holder (heap st) name nodes) as [[l v]|]; cbn [contains_outcome].
    { rewrite bool_decide_eq_true_2; [done|]. right. by eexists. }
    rewrite bool_decide_eq_false_2; [done|]. by intros [[? [=]]|[? [=]]].
  - intros depth fuel self name st.
    destruct name as [| | |name|]; try done.
    destruct (heap st !! self) as [[d|a c|sc|nl]|] eqn:Hself;
      try (unfold Nonlocals.__contains__, Nonlocals.load; simpl;
           rewrite bind_read, Hself; done).
    rewrite (nonlocals_contains_str _ _ _ _ _ _ Hself). split.
    + by apply contains_outcome_trace.
    + apply contains_outcome_returned.
  - intros depth fuel self name st Hname.
    unfold Nonlocals.__contains__. by rewrite Hname.
  - intros depth fuel self nl name nodes st Hself Hch Hfuel.
    rewrite (nonlocals_contains_str _ _ _ _ _ _ Hself).
    rewrite (find_attr_chain _ _ _ _ _ Hch Hfuel).
    destruct (first_holder (heap st) name nodes) as [[l v]|]; cbn [contains_outcome].
    { rewrite bool_decide_eq_true_2; [done|]. by eexists. }
    rewrite bool_decide_eq_false_2; [done|]. by intros [? [=]].
Qed.

(** In the scenario, [missing] is bound nowhere, and [c] only on Mid. *)
Lemma C4_contains_silent_witness :
  DynamicScope.__contains__ 3 Scenario.scope (VStr "missing") Scenario.st0
  = (Ok false, Scenario.st0) /\
  Nonlocals.__contains__ 1 3 Scenario.nonlocals (VStr "c") Scenario.st0
  = (Ok true, Scenario.st0) /\
  Nonlocals.__contains__ 1 3 Scenario.nonlocals (VInt 7) Scenario.st0
  = (Ok false, Scenario.st0).
Proof.
  destruct C4_contains_silent as (_ & _ & Hscope & _ & Hother & Hnls).
  refine (conj _ (conj _ _)).
  - apply (Hscope 3%nat Scenario.scope Scenario.scope_inst Scenario.tiers0 "missing"
             [Scenario.leaf; Scenario.mid; Scenario.root]);
      solve [reflexivity | vm_compute; reflexivity | simpl; lia].
  - apply (Hnls 1%nat 3%nat Scenario.nonlocals Scenario.nonlocals_inst "c"
             [Scenario.leaf; Scenario.mid; Scenario.root]);
      solve [reflexivity | simpl; lia].
  - apply Hother. reflexivity.
Defined.

(** ** One walk, two components *)

(** The two loops are the same function of the heap, read for read: by
    induction on the fuel, whatever the heap holds. *)
Lemma walks_agree fuel s sc n nl name st : forall parent,
  heap st !! s = Some (OScope sc) ->
  heap st !! n = Some (ONonlocals nl) ->
  _nls_listener nl = _listener sc ->
  DynamicScope.getitem_walk fuel s name parent st
  = Nonlocals.getitem_walk fuel n name parent st.
Proof.
  intros parent Hs Hn Hl. revert parent.
  induction fuel as [|fuel IH]; intros parent; [done|].
  cbn [DynamicScope.getitem_walk Nonlocals.getitem_walk].
  destruct (is_None parent); [done|].
  unfold try_except_AttributeError, py_getattr, read at 1 3.
  destruct (getattr_in (heap st) parent name) as [v|[]| |]; try done.
  - unfold DynamicScope.load, Nonlocals.load. by rewrite !bind_read, Hs, Hn, Hl.
  - rewrite !bind_read. by destruct (getattr_in (heap st) parent "parent").
Qed.

(** C5.  For a name in none of the four tiers of a scope on the owner
    [o], [DynamicScope.__getitem__] and [Nonlocals.__getitem__] of an
    accessor anchored at [o] with the same listener give the same result
    and the same final state, log of listener calls included, for every
    heap and every amount of fuel.  On a chain of owners this common
    result is the hierarchy walk of the specification: the value of the
    first owner holding the attribute and the one notification for it, or
    [KeyError]. *)
Theorem C5_same_walk fuel s sc t n nl name st :
  heap st !! s = Some (OScope sc) ->
  tiers_of (heap st) sc = Some t ->
  t_overrides t !! name = None ->
  t_identifiers t !! name = None ->
  t_globals t !! name = None ->
  t_builtins t !! name = None ->
  heap st !! n = Some (ONonlocals nl) ->
  _nls_obj nl = _obj sc ->
  _nls_listener nl = _listener sc ->
  DynamicScope.__getitem__ fuel s name st = Nonlocals.__getitem__ fuel n name st /\
  forall nodes,
    chain (heap st) (_obj sc) nodes = true ->
    (length nodes <= fuel)%nat ->
    Nonlocals.__getitem__ fuel n name st
    = match first_holder (heap st) name nodes with
      | Some (l, v) => (Ok v, notified (_listener sc) (VRef l) name v st)
      | None => (Raise (KeyError name), st)
      end.
Proof.
  intros Hs Ht HO HI HG HB Hn Hobj Hl.
  rewrite (scope_getitem_tiers _ _ _ _ _ _ Hs Ht).
  unfold tier_lookup. rewrite HO, HI, HG, HB.
  unfold Nonlocals.__getitem__, Nonlocals.load. rewrite bind_read, Hn, Hobj.
  split.
  - by apply (walks_agree _ _ sc _ nl).
  - intros nodes Hch Hfuel.
    rewrite (nonlocals_walk_find _ _ _ _ _ _ Hn), Hl.
    rewrite (find_attr_chain _ _ _ _ _ Hch Hfuel).
    by destruct (first_holder (heap st) name nodes) as [[l v]|].
Qed.

(** In the scenario the scope and the accessor are both on Leaf. *)
Lemma C5_same_walk_witness :
  DynamicScope.__getitem__ 3 Scenario.scope "c" Scenario.st0
  = Nonlocals.__getitem__ 3 Scenario.nonlocals "c" Scenario.st0.
Proof.
  apply (C5_same_walk 3 Scenario.scope Scenario.scope_inst Scenario.tiers0
           Scenario.nonlocals Scenario.nonlocals_inst "c" Scenario.st0);
    solve [reflexivity | vm_compute; reflexivity].
Defined.

(** ** Writes through an accessor *)

Section SetItem.

Context (name : string) (x : value) (st : state).

Lemma setattr_reject v l nodes :
  chain (heap st) v (l :: nodes) = true ->
  accepts_at (heap st) l name = false ->
  py_setattr v name x st = (Raise AttributeError, st).
Proof.
  intros (-> & attrs & accepts & p & Hl & _ & _)%chain_cons_inv.
  unfold accepts_at, py_setattr. rewrite Hl. by intros ->.
Qed.

Lemma setattr_accept v l nodes attrs accepts :
  chain (heap st) v (l :: nodes) = true ->
  heap st !! l = Some (OInst attrs accepts) ->
  accepts name = true ->
  py_setattr v name x st
  = (Ok tt, MkState (<[l := OInst (<[name := x]> attrs) accepts]> (heap st))
                    (trace st)).
Proof.
  intros (-> & _)%chain_cons_inv Hl Hacc.
  unfold py_setattr. by rewrite Hl, Hacc.
Qed.

(** The loop of [__setitem__] passes the owners that reject the write
    and stops on the first that accepts it. *)
Lemma setitem_walk_accept l post attrs accepts : forall pre fuel parent,
  chain (heap st) parent (pre ++ l :: post) = true ->
  (forall l', l' ∈ pre -> accepts_at (heap st) l' name = false) ->
  heap st !! l = Some (OInst attrs accepts) ->
  accepts name = true ->
  (length pre < fuel)%nat ->
  Nonlocals.setitem_walk fuel name x parent st
  = (Ok tt, MkState (<[l := OInst (<[name := x]> attrs) accepts]> (heap st))
                    (trace st)).
Proof.
  induction pre as [|l0 pre IH]; intros fuel parent Hch Hrej Hl Hacc Hfuel;
    (destruct fuel as [|fuel]; [simpl in Hfuel; lia|]); cbn [app] in Hch.
  - pose proof Hch as (-> & _)%chain_cons_inv.
    cbn [Nonlocals.setitem_walk is_None]. unfold try_except_AttributeError.
    by rewrite (setattr_accept _ _ _ _ _ Hch Hl Hacc).
  - pose proof Hch as (-> & _)%chain_cons_inv.
    destruct (chain_parent _ _ _ _ Hch) as (p & Hp & Hch').
    cbn [Nonlocals.setitem_walk is_None]. unfold try_except_AttributeError.
    rewrite (setattr_reject _ _ _ Hch) by (apply Hrej; left).
    unfold py_getattr. rewrite bind_read, Hp.
    apply IH; try done.
    + intros l' Hin. apply Hrej. by right.
    + simpl in Hfuel. lia.
Qed.

Lemma setitem_walk_reject : forall nodes fuel parent,
  chain (heap st) parent nodes = true ->
  (forall l', l' ∈ nodes -> accepts_at (heap st) l' name = false) ->
  (length nodes <= fuel)%nat ->
  Nonlocals.setitem_walk fuel name x parent st = (Raise (KeyError name), st).
Proof.
  induction nodes as [|l0 nodes IH]; intros fuel parent Hch Hrej Hfuel.
  - apply chain_nil_inv in Hch as ->. by destruct fuel.
  - destruct fuel as [|fuel]; [simpl in Hfuel; lia|].
    pose proof Hch as (-> & _)%chain_cons_inv.
    destruct (chain_parent _ _ _ _ Hch) as (p & Hp & Hch').
    cbn [Nonlocals.setitem_walk is_None]. unfold try_except_AttributeError.
    rewrite (setattr_reject _ _ _ Hch) by (apply Hrej; left).
    unfold py_getattr. rewrite bind_read, Hp.
    apply IH; try done.
    + intros l' Hin. apply Hrej. by right.
    + simpl in Hfuel. lia.
Qed.

End SetItem.

(** A write through an accessor calls no listener, on any heap. *)
Lemma setitem_walk_trace name x : forall fuel parent st,
  trace (snd (Nonlocals.setitem_walk fuel name x parent st)) = trace st.
Proof.
  induction fuel as [|fuel IH]; intros parent st; simpl;
    destruct (is_None parent); try done.
  unfold try_except_AttributeError, py_setattr.
  destruct parent as [| | | |l]; try done.
  destruct (heap st !! l) as [[d|attrs accepts|sc|nl]|]; try done.
  destruct (accepts name); [done|].
  unfold py_getattr. rewrite bind_read.
  destruct (getattr_in (heap st) (VRef l) "parent"); done.
Qed.

(** C6.  [Nonlocals.__setitem__] calls no listener, whatever the heap.
    On an accessor anchored on a chain of owners it tries the owners in
    order from the anchor.  If [l] is the first owner that accepts a
    write to [name], the call succeeds; the attribute [name] of [l] then
    holds the value, the other attributes of [l] and every other object
    of the heap (the owners before [l], which rejected the write, and
    those after it, which were never tried) are unchanged.  If every
    owner of the chain rejects the write, the call raises [KeyError] and
    the state is unchanged. *)
Theorem C6_set_first_acceptor :
  (forall fuel self name v st,
     trace (snd (Nonlocals.__setitem__ fuel self name v st)) = trace st) /\
  (forall fuel self nl nodes name v st,
     heap st !! self = Some (ONonlocals nl) ->
     chain (heap st) (_nls_obj nl) nodes = true ->
     (length nodes <= fuel)%nat ->
     let r := Nonlocals.__setitem__ fuel self name v st in
     (forall pre l post,
        nodes = pre ++ l :: post ->
        (forall l', l' ∈ pre -> accepts_at (heap st) l' name = false) ->
        accepts_at (heap st) l name = true ->
        fst r = Ok tt /\
        attr_at (heap (snd r)) l name = Some v /\
        (forall name', name' <> name ->
                       attr_at (heap (snd r)) l name' = attr_at (heap st) l name') /\
        (forall l', l' <> l -> heap (snd r) !! l' = heap st !! l') /\
        (forall l', l' ∈ pre -> heap (snd r) !! l' = heap st !! l')) /\
     ((forall l', l' ∈ nodes -> accepts_at (heap st) l' name = false) ->
      r = (Raise (KeyError name), st))).
Proof.
  split.
  { intros fuel self name v st.
    unfold Nonlocals.__setitem__, Nonlocals.load. rewrite bind_read.
    destruct (heap st !! self) as [[d|a c|sc|nl]|]; try done.
    apply setitem_walk_trace. }
  intros fuel self nl nodes name v st Hself Hch Hfuel r. subst r.
  unfold Nonlocals.__setitem__, Nonlocals.load. rewrite bind_read, Hself.
  split.
  - intros pre l post -> Hrej Hacc.
    unfold accepts_at in Hacc.
    destruct (heap st !! l) as [[d|attrs accepts|sc'|nl']|] eqn:Hl; try done.
    rewrite (setitem_walk_accept name v st l post attrs accepts pre fuel);
      try done.
    2: { rewrite length_app in Hfuel. simpl in Hfuel. lia. }
    cbn [fst snd heap trace]. unfold attr_at.
    refine (conj _ (conj _ (conj _ (conj _ _)))); try done.
    + by rewrite lookup_insert_eq, lookup_insert_eq.
    + intros name' Hne. by rewrite lookup_insert_eq, Hl, lookup_insert_ne.
    + intros l' Hne. by rewrite lookup_insert_ne.
    + intros l' Hin. rewrite lookup_insert_ne; [done|].
      intros <-. specialize (Hrej _ Hin). unfold accepts_at in Hrej.
      rewrite Hl in Hrej. congruence.
  - intros Hrej. by apply (setitem_walk_reject name v st nodes).
Qed.

(** In the scenario Leaf and Mid do not declare [z], Root does. *)
Lemma C6_set_first_acceptor_witness :
  accepts_at (heap Scenario.st0) Scenario.leaf "z" = false /\
  accepts_at (heap Scenario.st0) Scenario.mid "z" = false /\
  accepts_at (heap Scenario.st0) Scenario.root "z" = true /\
  attr_at (heap (snd (Nonlocals.__setitem__ 3 Scenario.nonlocals "z" (VInt 5)
                        Scenario.st0))) Scenario.root "z" = Some (VInt 5).
Proof.
  refine (conj eq_refl (conj eq_refl (conj eq_refl _))).
  destruct C6_set_first_acceptor as (_ & Hset).
  destruct (Hset 3%nat Scenario.nonlocals Scenario.nonlocals_inst
              [Scenario.leaf; Scenario.mid; Scenario.root] "z" (VInt 5) Scenario.st0)
    as (H & _).
  - reflexivity.
  - reflexivity.
  - simpl. lia.
  - apply (H [Scenario.leaf; Scenario.mid] Scenario.root []).
    + reflexivity.
    + intros l' Hin. apply list_elem_of_In in Hin.
      destruct Hin as [<-|[<-|[]]]; reflexivity.
    + reflexivity.
Defined.

(** ** Assignment *)

(** C7, as stated, fails when the scope was constructed with the same
    dict as identifiers and as overrides: the assignment goes through the
    shared dict, and the identifiers mapping gains the binding. *)
Lemma C7_assign_aliased_counterexample :
  fst Scenario.construct_aliased = Ok (VRef Scenario.aliased_scope) /\
  fst (DynamicScope.__setitem__ Scenario.aliased_scope "x" (VInt 7)
         Scenario.st_aliased)
  = Ok tt /\
  dict_at (heap Scenario.st_aliased) (VRef Scenario.identifiers)
  = Some (list_to_map [("a", VInt 1)]) /\
  dict_at (heap (snd (DynamicScope.__setitem__ Scenario.aliased_scope "x" (VInt 7)
                        Scenario.st_aliased)))
          (VRef Scenario.identifiers)
  = Some (list_to_map [("a", VInt 1); ("x", VInt 7)]) /\
  dict_at (heap (snd (DynamicScope.__setitem__ Scenario.aliased_scope "x" (VInt 7)
                        Scenario.st_aliased)))
          (VRef Scenario.identifiers)
  <> dict_at (heap Scenario.st_aliased) (VRef Scenario.identifiers).
Proof.
  refine (conj _ (conj _ (conj _ (conj _ _)))).
  - reflexivity.
  - reflexivity.
  - vm_compute. reflexivity.
  - vm_compute. reflexivity.
  - intros Heq.
    apply (f_equal (fun o => o ≫= (fun d : gmap string value => d !! "x"))) in Heq.
    vm_compute in Heq. discriminate Heq.
Qed.

(** C7 (amended).  [DynamicScope.__setitem__] on a scope whose overrides
    are a mapping always succeeds, without any listener call.  It binds
    the name in the overrides mapping, and a lookup of the name then
    returns the value just assigned.  Every object of the heap other than
    the overrides dict is unchanged; so the identifiers and the globals
    are unchanged whenever they are objects other than the overrides
    dict. *)
Theorem C7_assign_isolated fuel self sc dO name v st :
  heap st !! self = Some (OScope sc) ->
  dict_at (heap st) (_overrides sc) = Some dO ->
  let r := DynamicScope.__setitem__ self name v st in
  fst r = Ok tt /\
  trace (snd r) = trace st /\
  dict_at (heap (snd r)) (_overrides sc) = Some (<[name := v]> dO) /\
  DynamicScope.__getitem__ fuel self name (snd r) = (Ok v, snd r) /\
  (forall l, VRef l <> _overrides sc -> heap (snd r) !! l = heap st !! l) /\
  (_identifiers sc <> _overrides sc ->
   dict_at (heap (snd r)) (_identifiers sc) = dict_at (heap st) (_identifiers sc)) /\
  (_f_globals sc <> _overrides sc ->
   dict_at (heap (snd r)) (_f_globals sc) = dict_at (heap st) (_f_globals sc)).
Proof.
  intros Hself HO r. subst r.
  unfold DynamicScope.__setitem__, DynamicScope.load. rewrite bind_read, Hself.
  destruct (_overrides sc) as [| | | |lo] eqn:Hov; try done.
  simpl in HO. unfold py_setitem.
  destruct (heap st !! lo) as [[d|?|?|?]|] eqn:Hlo; try done.
  injection HO as ->. cbn [fst snd heap trace].
  set (st' := MkState (<[lo := ODict (<[name := v]> dO)]> (heap st)) (trace st)).
  assert (forall l, VRef l <> VRef lo -> heap st' !! l = heap st !! l) as Hframe.
  { intros l Hne. unfold st'. simpl. rewrite lookup_insert_ne; [done|congruence]. }
  assert (forall x, x <> VRef lo -> dict_at (heap st') x = dict_at (heap st) x) as Hd.
  { intros [| | | |l] Hne; try done. simpl. by rewrite Hframe. }
  assert (dict_at (heap st') (VRef lo) = Some (<[name := v]> dO)) as HO'.
  { unfold st'. simpl. by rewrite lookup_insert_eq. }
  refine (conj _ (conj _ (conj _ (conj _ (conj _ (conj _ _)))))); try done.
  - unfold DynamicScope.__getitem__, DynamicScope.load.
    rewrite bind_read, Hframe, Hself by (intros [= ->]; congruence).
    unfold py_contains, py_getitem. rewrite bind_read, Hov.
    rewrite (dict_at_contains _ _ _ name HO'), lookup_insert_eq.
    rewrite bool_decide_eq_true_2 by by eexists.
    unfold read. by rewrite (dict_at_getitem _ _ _ name HO'), lookup_insert_eq.
  - apply Hd.
  - apply Hd.
Qed.

(** In the scenario the three mappings are three dicts. *)
Lemma C7_assign_isolated_witness :
  DynamicScope.__getitem__ 3 Scenario.scope "x"
    (snd (DynamicScope.__setitem__ Scenario.scope "x" (VInt 7) Scenario.st0))
  = (Ok (VInt 7),
     snd (DynamicScope.__setitem__ Scenario.scope "x" (VInt 7) Scenario.st0)) /\
  dict_at (heap (snd (DynamicScope.__setitem__ Scenario.scope "x" (VInt 7)
                        Scenario.st0))) (VRef Scenario.identifiers)
  = dict_at (heap Scenario.st0) (VRef Scenario.identifiers).
Proof.
  destruct (C7_assign_isolated 3 Scenario.scope Scenario.scope_inst ∅ "x" (VInt 7)
              Scenario.st0) as (_ & _ & _ & Hget & _ & Hids & _).
  - reflexivity.
  - reflexivity.
  - split; [exact Hget|]. apply Hids. discriminate.
Defined.

(** ** The nearest holder wins *)

Lemma first_holder_app h name a va rest : forall pre,
  (forall l, l ∈ pre -> attr_at h l name = None) ->
  attr_at h a name = Some va ->
  first_holder h name (pre ++ a :: rest) = Some (a, va).
Proof.
  induction pre as [|l pre IH]; intros Hpre Ha; cbn [app first_holder].
  - by rewrite Ha.
  - rewrite (Hpre l) by left. apply IH; [|done].
    intros l' Hin. apply Hpre. by right.
Qed.

(** C8.  The hierarchy walk stops at the nearest owner holding the
    attribute.  On a chain where the owner [a] holds [name] with value
    [va], no owner before [a] holds it, and an owner [b] further up holds
    it too, with any value [vb]: the lookup of a name bound in no tier
    through a scope, and the lookup through an accessor, both return
    [va], and the listener, if any, is notified with [a], once; [b] and
    [vb] play no part. *)
Theorem C8_short_circuit fuel nodes pre a mid b post name va vb st :
  nodes = pre ++ a :: mid ++ b :: post ->
  (forall l, l ∈ pre -> attr_at (heap st) l name = None) ->
  attr_at (heap st) a name = Some va ->
  attr_at (heap st) b name = Some vb ->
  (length nodes <= fuel)%nat ->
  (forall self sc t,
     heap st !! self = Some (OScope sc) ->
     tiers_of (heap st) sc = Some t ->
     tier_lookup t name = None ->
     chain (heap st) (_obj sc) nodes = true ->
     DynamicScope.__getitem__ fuel self name st
     = (Ok va, notified (_listener sc) (VRef a) name va st)) /\
  (forall self nl,
     heap st !! self = Some (ONonlocals nl) ->
     chain (heap st) (_nls_obj nl) nodes = true ->
     Nonlocals.__getitem__ fuel self name st
     = (Ok va, notified (_nls_listener nl) (VRef a) name va st)).
Proof.
  intros -> Hpre Ha Hb Hfuel.
  pose proof (first_holder_app (heap st) name a va (mid ++ b :: post) pre Hpre Ha)
    as Hfirst.
  split.
  - intros self sc t Hself Ht Hnone Hch.
    rewrite (scope_getitem_tiers _ _ _ _ _ _ Hself Ht), Hnone.
    rewrite (scope_walk_find _ _ _ _ _ _ Hself).
    by rewrite (find_attr_chain _ _ _ _ _ Hch Hfuel), Hfirst.
  - intros self nl Hself Hch.
    rewrite (nonlocals_getitem_find _ _ _ _ _ Hself).
    by rewrite (find_attr_chain _ _ _ _ _ Hch Hfuel), Hfirst.
Qed.

(** In the scenario both Leaf and Mid hold [y]: 10 on Leaf, 20 on Mid. *)
Lemma C8_short_circuit_witness :
  attr_at (heap Scenario.st0) Scenario.mid "y" = Some (VInt 20) /\
  Nonlocals.__getitem__ 3 Scenario.nonlocals "y" Scenario.st0
  = (Ok (VInt 10),
     notified (VRef Scenario.listener) (VRef Scenario.leaf) "y" (VInt 10)
              Scenario.st0).
Proof.
  split; [reflexivity|].
  destruct (C8_short_circuit 3 [Scenario.leaf; Scenario.mid; Scenario.root]
              [] Scenario.leaf [] Scenario.mid [Scenario.root] "y"
              (VInt 10) (VInt 20) Scenario.st0) as (_ & H).
  - reflexivity.
  - intros l Hin. by apply elem_of_nil in Hin.
  - reflexivity.
  - reflexivity.
  - simpl. lia.
  - apply (H Scenario.nonlocals Scenario.nonlocals_inst); reflexivity.
Defined.

(** ** Accessors from accessors *)

Section Call.

Lemma call_walk_reads level : forall fuel target offset st,
  snd (Nonlocals.call_walk fuel level target offset st) = st.
Proof.
  induction fuel as [|fuel IH]; intros target offset st; simpl;
    destruct (negb (is_None target) && negb (offset =? level)%Z); try done.
  unfold py_getattr. rewrite bind_read.
  destruct (getattr_in (heap st) target "parent"); done.
Qed.

(** [__call__] only adds an object to the heap. *)
Lemma nonlocals_call_frame self level st l :
  is_Some (heap st !! l) ->
  heap (snd (Nonlocals.__call__ self level st)) !! l = heap st !! l.
Proof.
  intros Hl. unfold Nonlocals.__call__.
  destruct (isinstance_int level) as [n|]; [|done].
  destruct (n <? 0)%Z; [done|].
  unfold Nonlocals.load. rewrite bind_read.
  destruct (heap st !! self) as [[d|a c|sc|nl]|]; try done.
  unfold bind at 1.
  pose proof (call_walk_reads n (Z.to_nat n) (_nls_obj nl) 0 st) as Hst.
  destruct (Nonlocals.call_walk (Z.to_nat n) n (_nls_obj nl) 0 st)
    as [[[target offset]| | |] st1]; simpl in Hst; subst st1; try done.
  destruct (negb (offset =? n)%Z); [done|].
  rewrite bind_read.
  destruct (heap st !! self) as [[d|a c|sc|nl']|]; try done.
  unfold Nonlocals.__init__, alloc. simpl.
  rewrite lookup_insert_ne; [done|].
  intros <-. apply elem_of_dom in Hl. by apply is_fresh in Hl.
Qed.

Lemma nonlocals_call_trace self level st :
  trace (snd (Nonlocals.__call__ self level st)) = trace st.
Proof.
  unfold Nonlocals.__call__.
  destruct (isinstance_int level) as [n|]; [|done].
  destruct (n <? 0)%Z; [done|].
  unfold Nonlocals.load. rewrite bind_read.
  destruct (heap st !! self) as [[d|a c|sc|nl]|]; try done.
  unfold bind at 1.
  pose proof (call_walk_reads n (Z.to_nat n) (_nls_obj nl) 0 st) as Hst.
  destruct (Nonlocals.call_walk (Z.to_nat n) n (_nls_obj nl) 0 st)
    as [[[target offset]| | |] st1]; simpl in Hst; subst st1; try done.
  destruct (negb (offset =? n)%Z); [done|].
  rewrite bind_read.
  by destruct (heap st !! self) as [[d|a c|sc|nl']|].
Qed.

Lemma nonlocals_call_zero self nl st :
  heap st !! self = Some (ONonlocals nl) ->
  Nonlocals.__call__ self (VInt 0) st
  = (Ok (VRef (fresh (dom (heap st)))),
     MkState (<[fresh (dom (heap st)) := ONonlocals nl]> (heap st)) (trace st)).
Proof.
  intros Hself. unfold Nonlocals.__call__. simpl.
  unfold Nonlocals.load. rewrite bind_read, Hself.
  unfold bind at 1. destruct (is_None (_nls_obj nl)); simpl;
    rewrite bind_read, Hself; unfold Nonlocals.__init__, alloc; by destruct nl.
Qed.

(** Two accessors with the same anchor and listener answer alike. *)
Lemma accessors_agree a b nl st :
  heap st !! a = Some (ONonlocals nl) ->
  heap st !! b = Some (ONonlocals nl) ->
  (forall fuel name,
     Nonlocals.__getitem__ fuel a name st = Nonlocals.__getitem__ fuel b name st) /\
  (forall fuel name v,
     Nonlocals.__setitem__ fuel a name v st
     = Nonlocals.__setitem__ fuel b name v st) /\
  (forall depth fuel name,
     fst (Nonlocals.__contains__ depth fuel a name st)
     = fst (Nonlocals.__contains__ depth fuel b name st) /\
     (returned (fst (Nonlocals.__contains__ depth fuel a name st)) ->
      snd (Nonlocals.__contains__ depth fuel a name st)
      = snd (Nonlocals.__contains__ depth fuel b name st))).
Proof.
  intros Ha Hb. refine (conj _ (conj _ _)).
  - intros fuel name.
    by rewrite (nonlocals_getitem_find _ _ _ _ _ Ha),
               (nonlocals_getitem_find _ _ _ _ _ Hb).
  - intros fuel name v. unfold Nonlocals.__setitem__, Nonlocals.load.
    by rewrite !bind_read, Ha, Hb.
  - intros depth fuel name.
    destruct name as [| | |name|]; try done.
    rewrite (nonlocals_contains_str _ _ _ _ _ _ Ha),
            (nonlocals_contains_str _ _ _ _ _ _ Hb).
    by destruct (find_attr fuel (heap st) name (_nls_obj nl)) as [?|[]| |].
Qed.

End Call.



(** ** The two reserved names *)

(** C10.  [Nonlocals.__setattr__] with the name [_nls_obj] or
    [_nls_listener] walks no chain: for every fuel and recursion depth,
    zero included, and whatever the anchor is, it succeeds by rebinding
    the slot of the accessor itself.  Every other object of the heap, so
    every owner object, is unchanged, and no listener is called.  A later
    [__getitem__] walks the chain of the newly bound anchor, and notifies
    the newly bound listener. *)
Theorem C10_reserved_names depth fuel self nl v st :
  heap st !! self = Some (ONonlocals nl) ->
  let st_obj :=
    MkState (<[self := ONonlocals (MkNonlocals v (_nls_listener nl))]> (heap st))
            (trace st) in
  let st_listener :=
    MkState (<[self := ONonlocals (MkNonlocals (_nls_obj nl) v)]> (heap st))
            (trace st) in
  Nonlocals.__setattr__ depth fuel self "_nls_obj" v st = (Ok tt, st_obj) /\
  Nonlocals.__setattr__ depth fuel self "_nls_listener" v st = (Ok tt, st_listener) /\
  (forall l, l <> self ->
             heap st_obj !! l = heap st !! l /\ heap st_listener !! l = heap st !! l) /\
  (forall l, owner_view (heap st_obj) l = owner_view (heap st) l /\
             owner_view (heap st_listener) l = owner_view (heap st) l) /\
  (forall fuel' name nodes,
     chain (heap st) v nodes = true ->
     (length nodes <= fuel')%nat ->
     Nonlocals.__getitem__ fuel' self name st_obj
     = match first_holder (heap st) name nodes with
       | Some (l, x) => (Ok x, notified (_nls_listener nl) (VRef l) name x st_obj)
       | None => (Raise (KeyError name), st_obj)
       end) /\
  (forall fuel' name nodes,
     chain (heap st) (_nls_obj nl) nodes = true ->
     (length nodes <= fuel')%nat ->
     Nonlocals.__getitem__ fuel' self name st_listener
     = match first_holder (heap st) name nodes with
       | Some (l, x) => (Ok x, notified v (VRef l) name x st_listener)
       | None => (Raise (KeyError name), st_listener)
       end).
Proof.
  intros Hself st_obj st_listener.
  assert (same_data (heap st) (heap st_obj)) as Hsame_obj.
  { apply same_data_insert; by rewrite ?Hself. }
  assert (same_data (heap st) (heap st_listener)) as Hsame_listener.
  { apply same_data_insert; by rewrite ?Hself. }
  refine (conj _ (conj _ (conj _ (conj _ (conj _ _))))).
  - unfold Nonlocals.__setattr__, Nonlocals.store_dict. simpl. by rewrite Hself.
  - by apply setattr_listener.
  - intros l Hne. unfold st_obj, st_listener. simpl.
    by rewrite !lookup_insert_ne.
  - intros l. split; symmetry; by apply same_data_owner.
  - intros fuel' name nodes Hch Hfuel.
    rewrite (nonlocals_getitem_find _ _ (MkNonlocals v (_nls_listener nl)))
      by (unfold st_obj; simpl; by rewrite lookup_insert_eq).
    cbn [_nls_obj _nls_listener].
    rewrite <- (same_data_find_attr _ _ Hsame_obj).
    rewrite (find_attr_chain _ _ _ _ _ Hch Hfuel).
    by destruct (first_holder (heap st) name nodes) as [[l x]|].
  - intros fuel' name nodes Hch Hfuel.
    rewrite (nonlocals_getitem_find _ _ (MkNonlocals (_nls_obj nl) v))
      by (unfold st_listener; simpl; by rewrite lookup_insert_eq).
    cbn [_nls_obj _nls_listener].
    rewrite <- (same_data_find_attr _ _ Hsame_listener).
    rewrite (find_attr_chain _ _ _ _ _ Hch Hfuel).
    by destruct (first_holder (heap st) name nodes) as [[l x]|].
Qed.

(** In the scenario: the accessor on Leaf is moved to Mid, with no fuel
    and no recursion depth at all. *)
Lemma C10_reserved_names_witness :
  Nonlocals.__setattr__ 0 0 Scenario.nonlocals "_nls_obj" (VRef Scenario.mid)
    Scenario.st0
  = (Ok tt,
     MkState (<[Scenario.nonlocals :=
                  ONonlocals (MkNonlocals (VRef Scenario.mid) (VRef Scenario.listener))]>
                (heap Scenario.st0))
             (trace Scenario.st0)).
Proof.
  apply (C10_reserved_names 0 0 Scenario.nonlocals Scenario.nonlocals_inst
           (VRef Scenario.mid) Scenario.st0).
  reflexivity.
Defined.

(** ** The scenario of the specification, run *)

Example scenario_identifier :
  DynamicScope.__getitem__ 3 Scenario.scope "a" Scenario.st0
  = (Ok (VInt 1), Scenario.st0).
Proof. reflexivity. Qed.

Example scenario_global :
  DynamicScope.__getitem__ 3 Scenario.scope "b" Scenario.st0
  = (Ok (VInt 2), Scenario.st0).
Proof. reflexivity. Qed.

Example scenario_walk :
  DynamicScope.__getitem__ 3 Scenario.scope "c" Scenario.st0
  = (Ok (VInt 3),
     MkState Scenario.objects
             [DynamicLoad (VRef Scenario.listener) (VRef Scenario.mid) "c" (VInt 3)]).
Proof. reflexivity. Qed.

Example scenario_missing :
  DynamicScope.__getitem__ 3 Scenario.scope "missing" Scenario.st0
  = (Raise (KeyError "missing"), Scenario.st0).
Proof. reflexivity. Qed.

(** Too little fuel for the three owners of the chain. *)
Example scenario_missing_short_of_fuel :
  fst (DynamicScope.__getitem__ 2 Scenario.scope "missing" Scenario.st0) = Diverge.
Proof. reflexivity. Qed.

(** [True] is an [int]: one level up. *)
Example scenario_level_True :
  exists l',
    Nonlocals.__call__ Scenario.nonlocals (VBool true) Scenario.st0
    = (Ok (VRef l'),
       MkState (<[l' := ONonlocals (MkNonlocals (VRef Scenario.mid)
                                                (VRef Scenario.listener))]>
                  Scenario.objects) []).
Proof. exists 11%positive. reflexivity. Qed.

Example scenario_level_negative :
  Nonlocals.__call__ Scenario.nonlocals (VInt (-1)) Scenario.st0
  = (Raise ValueError, Scenario.st0).
Proof. reflexivity. Qed.

Example scenario_level_string :
  Nonlocals.__call__ Scenario.nonlocals (VStr "1") Scenario.st0
  = (Raise ValueError, Scenario.st0).
Proof. reflexivity. Qed.

(** No owner declares [q], and none holds [_obj]: formatting the message
    of the [AttributeError] never ends, and the recursion limit is hit. *)
Example scenario_setattr_undeclared :
  Nonlocals.__setattr__ 5 3 Scenario.nonlocals "q" VNone Scenario.st0
  = (Raise RuntimeError, Scenario.st0).
Proof. reflexivity. Qed.

(** * Further properties of the two classes *)

(** ** Lookups as functions of the heap *)

Lemma scope_getitem_find fuel self sc name st :
  heap st !! self = Some (OScope sc) ->
  DynamicScope.__getitem__ fuel self name st
  = scope_deliver (_listener sc) name (scope_find fuel (heap st) sc name) st.
Proof.
  intros Hself.
  unfold DynamicScope.__getitem__, DynamicScope.load, py_contains, py_getitem.
  rewrite bind_read, Hself. unfold scope_find, tier_find.
  rewrite bind_read.
  destruct (contains_in (heap st) (_overrides sc) name) as [[]| | |]; simpl; try done.
  { unfold read. by destruct (getitem_in (heap st) (_overrides sc) name). }
  rewrite bind_read.
  destruct (contains_in (heap st) (_identifiers sc) name) as [[]| | |]; simpl; try done.
  { unfold read. by destruct (getitem_in (heap st) (_identifiers sc) name). }
  rewrite bind_read.
  destruct (contains_in (heap st) (_f_globals sc) name) as [[]| | |]; simpl; try done.
  { unfold read. by destruct (getitem_in (heap st) (_f_globals sc) name). }
  rewrite bind_read.
  destruct (getitem_in (heap st) (_f_globals sc) "__builtins__") as [b| | |];
    simpl; try done.
  rewrite bind_read.
  destruct (contains_in (heap st) b name) as [[]| | |]; simpl; try done.
  { unfold read. by destruct (getitem_in (heap st) b name). }
  rewrite (scope_walk_find _ _ _ _ _ _ Hself).
  by destruct (find_attr fuel (heap st) name (_obj sc)) as [[o v]| | |].
Qed.

Lemma scope_deliver_heap lst name r st :
  heap (snd (scope_deliver lst name r st)) = heap st.
Proof.
  destruct r as [[[o|] v]| | |]; try done.
  unfold scope_deliver, notified. by destruct (is_None lst).
Qed.

Lemma deliver_heap lst name r st : heap (snd (deliver lst name r st)) = heap st.
Proof.
  destruct r as [[o v]| | |]; try done.
  unfold deliver, notified. by destruct (is_None lst).
Qed.

Lemma notified_trace lst o name v st :
  trace (notified lst o name v st) = trace st \/
  trace (notified lst o name v st) = trace st ++ [DynamicLoad lst o name v].
Proof. unfold notified. destruct (is_None lst); [by left|by right]. Qed.

Section OwnerExt.

Context (h1 h2 : gmap loc object).
Context (Hown : forall l, owner_view h1 l = owner_view h2 l).

Lemma owner_ext_getattr o name : getattr_in h1 o name = getattr_in h2 o name.
Proof.
  destruct o as [| | | |l]; try done.
  pose proof (Hown l) as Ho. unfold owner_view in Ho. simpl.
  destruct (h1 !! l) as [[]|], (h2 !! l) as [[]|]; try done.
  by injection Ho as <- <-.
Qed.

Lemma owner_ext_find_attr fuel name : forall parent,
  find_attr fuel h1 name parent = find_attr fuel h2 name parent.
Proof.
  induction fuel as [|fuel IH]; intros parent; [done|].
  cbn [find_attr]. rewrite !(owner_ext_getattr parent).
  destruct (is_None parent); [done|].
  destruct (getattr_in h2 parent name) as [|[]| |]; try done.
  destruct (getattr_in h2 parent "parent"); try done.
Qed.

Lemma owner_ext_attr_at l name : attr_at h1 l name = attr_at h2 l name.
Proof.
  pose proof (Hown l) as Ho. unfold owner_view in Ho. unfold attr_at.
  destruct (h1 !! l) as [[]|], (h2 !! l) as [[]|]; try done.
  by injection Ho as <- <-.
Qed.

Lemma owner_ext_chain nodes : forall v, chain h1 v nodes = chain h2 v nodes.
Proof.
  induction nodes as [|l nodes IH]; intros v; [done|].
  destruct v as [| | | |l']; try done. cbn [chain].
  pose proof (Hown l) as Ho. unfold owner_view in Ho.
  destruct (h1 !! l) as [[]|], (h2 !! l) as [[]|]; try done.
  injection Ho as <- <-. by destruct (attrs !! "parent"); rewrite ?IH.
Qed.

Lemma owner_ext_first_holder name nodes :
  first_holder h1 name nodes = first_holder h2 name nodes.
Proof.
  induction nodes as [|l nodes IH]; [done|].
  cbn [first_holder]. by rewrite owner_ext_attr_at, IH.
Qed.

End OwnerExt.

Section SameDataScope.

Context (h1 h2 : gmap loc object) (Hsame : same_data h1 h2).

Lemma same_data_contains_in v name : contains_in h1 v name = contains_in h2 v name.
Proof.
  destruct v as [| | | |l]; try done.
  destruct (Hsame l) as [Hd Ho]. unfold owner_view in Ho. simpl in *.
  destruct (h1 !! l) as [[]|], (h2 !! l) as [[]|]; try done.
  by injection Hd as <-.
Qed.

Lemma same_data_getitem_in v name : getitem_in h1 v name = getitem_in h2 v name.
Proof.
  destruct v as [| | | |l]; try done.
  destruct (Hsame l) as [Hd Ho]. unfold owner_view in Ho. simpl in *.
  destruct (h1 !! l) as [[]|], (h2 !! l) as [[]|]; try done.
  by injection Hd as <-.
Qed.

Lemma same_data_scope_find fuel sc1 sc2 name :
  _obj sc1 = _obj sc2 ->
  _overrides sc1 = _overrides sc2 ->
  _identifiers sc1 = _identifiers sc2 ->
  _f_globals sc1 = _f_globals sc2 ->
  scope_find fuel h1 sc1 name = scope_find fuel h2 sc2 name.
Proof.
  intros Hobj HO HI HG. unfold scope_find, tier_find.
  rewrite Hobj, HO, HI, HG.
  rewrite !same_data_contains_in, !same_data_getitem_in.
  rewrite (same_data_find_attr _ _ Hsame).
  destruct (getitem_in h2 (_f_globals sc2) "__builtins__") as [b| | |]; try done.
  simpl. by rewrite !same_data_contains_in, !same_data_getitem_in.
Qed.

End SameDataScope.

Lemma scope_deliver_fst lst name r st :
  fst (scope_deliver lst name r st)
  = res_bind r (fun hit => Ok (snd hit)).
Proof. by destruct r as [[[o|] v]| | |]. Qed.

(** ** Lookups never write *)

(** X1.  [DynamicScope.__getitem__] and [Nonlocals.__getitem__] never
    change the heap, whatever the name, the fuel and the heap are and
    however the lookup ends; and the log of listener calls after a lookup
    is the log before it, or that log with one call added. *)
Theorem X1_getitem_reads_only :
  (forall fuel self name st,
     heap (snd (DynamicScope.__getitem__ fuel self name st)) = heap st /\
     (trace (snd (DynamicScope.__getitem__ fuel self name st)) = trace st \/
      exists e, trace (snd (DynamicScope.__getitem__ fuel self name st))
                = trace st ++ [e])) /\
  (forall fuel self name st,
     heap (snd (Nonlocals.__getitem__ fuel self name st)) = heap st /\
     (trace (snd (Nonlocals.__getitem__ fuel self name st)) = trace st \/
      exists e, trace (snd (Nonlocals.__getitem__ fuel self name st))
                = trace st ++ [e])).
Proof.
  split; intros fuel self name st.
  - destruct (heap st !! self) as [[d|a c|sc|nl]|] eqn:Hself;
      try (unfold DynamicScope.__getitem__, DynamicScope.load;
           rewrite bind_read, Hself; split; [done|by left]).
    rewrite (scope_getitem_find _ _ _ _ _ Hself).
    split; [apply scope_deliver_heap|].
    destruct (scope_find fuel (heap st) sc name) as [[[o|] v]| | |];
      try (by left). simpl.
    destruct (notified_trace (_listener sc) o name v st) as [->| ->];
      [by left|right; by eexists].
  - destruct (heap st !! self) as [[d|a c|sc|nl]|] eqn:Hself;
      try (unfold Nonlocals.__getitem__, Nonlocals.load;
           rewrite bind_read, Hself; split; [done|by left]).
    rewrite (nonlocals_getitem_find _ _ _ _ _ Hself).
    split; [apply deliver_heap|].
    destruct (find_attr fuel (heap st) name (_nls_obj nl)) as [[o v]| | |];
      try (by left). simpl.
    destruct (notified_trace (_nls_listener nl) o name v st) as [->| ->];
      [by left|right; by eexists].
Qed.

(** ** Membership and lookup agree *)

Lemma scope_getitem_muted_fst fuel self sc name st :
  heap st !! self = Some (OScope sc) ->
  fst (DynamicScope.__getitem__ fuel self name (muted_scope self sc st))
  = fst (DynamicScope.__getitem__ fuel self name st).
Proof.
  intros Hself.
  set (sc' := MkDynamicScope (_obj sc) (_identifiers sc) (_overrides sc)
                             (_f_globals sc) VNone).
  assert (heap (muted_scope self sc st) !! self = Some (OScope sc')) as Hm.
  { unfold muted_scope. simpl. by rewrite lookup_insert_eq. }
  rewrite (scope_getitem_find _ _ _ _ _ Hm), (scope_getitem_find _ _ _ _ _ Hself).
  rewrite !scope_deliver_fst.
  by rewrite <- (same_data_scope_find _ _ (muted_scope_same_data _ _ _ Hself)
                   fuel sc sc' name).
Qed.

(** X2.  [name in x] agrees with [x[name]], for a scope and for an
    accessor, on every heap and for every string: the test answers
    [True] exactly when the lookup from the same state returns a value
    and [False] exactly when it raises [KeyError]; every other exception
    of the lookup comes out of the test unchanged, and the test does not
    end if the lookup does not. *)
Theorem X2_contains_agrees_with_getitem :
  (forall fuel self sc name st,
     heap st !! self = Some (OScope sc) ->
     fst (DynamicScope.__contains__ fuel self (VStr name) st)
     = membership (fst (DynamicScope.__getitem__ fuel self name st))) /\
  (forall depth fuel self nl name st,
     heap st !! self = Some (ONonlocals nl) ->
     fst (Nonlocals.__contains__ depth fuel self (VStr name) st)
     = membership (fst (Nonlocals.__getitem__ fuel self name st))).
Proof.
  split.
  - intros fuel self sc name st Hself.
    rewrite (scope_contains_str _ _ _ _ _ Hself).
    rewrite (scope_getitem_muted_fst _ _ _ _ _ Hself).
    by destruct (fst (DynamicScope.__getitem__ fuel self name st)) as [?|[]| |].
  - intros depth fuel self nl name st Hself.
    rewrite (nonlocals_contains_str _ _ _ _ _ _ Hself).
    rewrite (nonlocals_getitem_find _ _ _ _ _ Hself), deliver_fst.
    by destruct (find_attr fuel (heap st) name (_nls_obj nl)) as [[o v]|[]| |].
Qed.

(** In the scenario [c] is found by the walk and [missing] is not. *)
Lemma X2_contains_agrees_with_getitem_witness :
  fst (DynamicScope.__contains__ 3 Scenario.scope (VStr "c") Scenario.st0)
  = membership (fst (DynamicScope.__getitem__ 3 Scenario.scope "c" Scenario.st0)) /\
  fst (Nonlocals.__contains__ 1 3 Scenario.nonlocals (VStr "missing") Scenario.st0)
  = membership (fst (Nonlocals.__getitem__ 3 Scenario.nonlocals "missing"
                       Scenario.st0)).
Proof.
  destruct X2_contains_agrees_with_getitem as (Hscope & Hnls). split.
  - apply (Hscope 3%nat Scenario.scope Scenario.scope_inst). reflexivity.
  - apply (Hnls 1%nat 3%nat Scenario.nonlocals Scenario.nonlocals_inst). reflexivity.
Defined.

(** ** Globals without builtins *)

(** X3.  When the globals of a scope have no key [__builtins__], a name
    that is in none of overrides, identifiers and globals is not looked
    up on the owners at all: [DynamicScope.__getitem__] raises
    [KeyError] for the key [__builtins__], not for the name, with the
    state unchanged and whatever the owners hold, and
    [DynamicScope.__contains__] answers [False]. *)
Theorem X3_missing_builtins fuel self sc dO dI dG name st :
  heap st !! self = Some (OScope sc) ->
  dict_at (heap st) (_overrides sc) = Some dO ->
  dict_at (heap st) (_identifiers sc) = Some dI ->
  dict_at (heap st) (_f_globals sc) = Some dG ->
  dO !! name = None ->
  dI !! name = None ->
  dG !! name = None ->
  dG !! "__builtins__" = None ->
  DynamicScope.__getitem__ fuel self name st = (Raise (KeyError "__builtins__"), st) /\
  DynamicScope.__contains__ fuel self (VStr name) st = (Ok false, st).
Proof.
  intros Hself HO HI HG HnO HnI HnG Hb.
  assert (DynamicScope.__getitem__ fuel self name st
          = (Raise (KeyError "__builtins__"), st)) as Hget.
  { rewrite (scope_getitem_find _ _ _ _ _ Hself). unfold scope_find, tier_find.
    rewrite (dict_at_contains _ _ _ name HO), (dict_at_contains _ _ _ name HI),
            (dict_at_contains _ _ _ name HG), HnO, HnI, HnG.
    rewrite !bool_decide_eq_false_2 by (by intros [? [=]]). simpl.
    by rewrite (dict_at_getitem _ _ _ "__builtins__" HG), Hb. }
  split; [done|].
  rewrite (scope_contains_str _ _ _ _ _ Hself).
  by rewrite (scope_getitem_muted_fst _ _ _ _ _ Hself), Hget.
Qed.

(** With globals [{b: 2}], the attribute [c] of Mid is out of reach. *)
Lemma X3_missing_builtins_witness :
  attr_at (heap Cases.bare) Scenario.mid "c" = Some (VInt 3) /\
  DynamicScope.__getitem__ 3 Cases.bare_scope "c" Cases.bare
  = (Raise (KeyError "__builtins__"), Cases.bare).
Proof.
  split; [reflexivity|].
  apply (X3_missing_builtins 3 Cases.bare_scope Cases.bare_inst
           ∅ (list_to_map [("a", VInt 1)]) (list_to_map [("b", VInt 2)]) "c"
           Cases.bare);
    solve [reflexivity | vm_compute; reflexivity].
Defined.

(** ** Attribute access on an accessor *)

Section AttributeSugar.

Lemma nonlocals_getitem_raise fuel self name e st :
  fst (Nonlocals.__getitem__ fuel self name st) = Raise e ->
  Nonlocals.__getitem__ fuel self name st = (Raise e, st).
Proof.
  destruct (heap st !! self) as [[d|a c|sc|nl]|] eqn:Hself;
    try (unfold Nonlocals.__getitem__, Nonlocals.load; by rewrite bind_read, Hself).
  rewrite (nonlocals_getitem_find _ _ _ _ _ Hself).
  destruct (find_attr fuel (heap st) name (_nls_obj nl)) as [[o v]| | |]; try done.
  simpl. by intros [= ->].
Qed.

(** With no owner holding [_obj], formatting the accessor never ends:
    [__repr__] and the [KeyError] handler of [__getattr__] call each
    other until the recursion limit, whatever the limit is. *)
Lemma repr_unbounded fuel self st :
  fst (Nonlocals.__getitem__ fuel self "_obj" st) = Raise (KeyError "_obj") ->
  forall depth,
    Nonlocals.__repr__ depth fuel self st = (Raise RuntimeError, st) /\
    forall name,
      fst (Nonlocals.__getitem__ fuel self name st) = Raise (KeyError name) ->
      Nonlocals.__getattr__ depth fuel self name st = (Raise RuntimeError, st).
Proof.
  intros Hobj%nonlocals_getitem_raise.
  induction depth as [|depth [IHrepr IHget]]; [done|]. split.
  - cbn [Nonlocals.__repr__]. unfold bind. by rewrite (IHget "_obj") by by rewrite Hobj.
  - intros name Hname%nonlocals_getitem_raise.
    cbn [Nonlocals.__getattr__]. unfold try_except_KeyError. rewrite Hname.
    unfold bind. by rewrite IHrepr.
Qed.

Lemma setitem_walk_raise name x e : forall fuel parent st,
  fst (Nonlocals.setitem_walk fuel name x parent st) = Raise e ->
  Nonlocals.setitem_walk fuel name x parent st = (Raise e, st).
Proof.
  induction fuel as [|fuel IH]; intros parent st; simpl;
    destruct (is_None parent); simpl; try done; try (by intros [= ->]).
  unfold try_except_AttributeError, py_setattr.
  destruct parent as [| | | |l]; try done.
  destruct (heap st !! l) as [[d|attrs accepts|sc|nl]|]; try done.
  destruct (accepts name); [done|].
  unfold py_getattr. rewrite bind_read.
  destruct (getattr_in (heap st) (VRef l) "parent"); simpl; try done;
    try (by intros [= ->]).
  apply IH.
Qed.

Lemma nonlocals_setitem_raise fuel self name x e st :
  fst (Nonlocals.__setitem__ fuel self name x st) = Raise e ->
  Nonlocals.__setitem__ fuel self name x st = (Raise e, st).
Proof.
  unfold Nonlocals.__setitem__, Nonlocals.load. rewrite bind_read.
  destruct (heap st !! self) as [[d|a c|sc|nl]|]; try done.
  apply setitem_walk_raise.
Qed.

End AttributeSugar.







(** ** A write, then a read *)

Section WriteThenRead.

Context (h : gmap loc object) (l : loc) (attrs : gmap string value)
        (accepts : string -> bool) (name : string) (x : value).
Context (Hl : h !! l = Some (OInst attrs accepts)).

Let h' : gmap loc object := <[l := OInst (<[name := x]> attrs) accepts]> h.

Lemma write_attr_at_same : attr_at h' l name = Some x.
Proof. unfold attr_at, h'. by rewrite lookup_insert_eq, lookup_insert_eq. Qed.

Lemma write_attr_at_other l' : l' <> l -> forall name', attr_at h' l' name' = attr_at h l' name'.
Proof. intros Hne name'. unfold attr_at, h'. by rewrite lookup_insert_ne. Qed.

Lemma write_dict_at v : dict_at h' v = dict_at h v.
Proof.
  destruct v as [| | | |l']; try done. simpl. unfold h'.
  destruct (decide (l = l')) as [<-|Hne].
  - by rewrite lookup_insert_eq, Hl.
  - by rewrite lookup_insert_ne.
Qed.

Lemma write_tiers_of sc : tiers_of h' sc = tiers_of h sc.
Proof.
  unfold tiers_of. rewrite !write_dict_at.
  destruct (dict_at h (_overrides sc)), (dict_at h (_identifiers sc)),
    (dict_at h (_f_globals sc)) as [dG|]; try done.
  destruct (dG !! "__builtins__"); [|done]. by rewrite write_dict_at.
Qed.

Lemma write_chain nodes : forall v,
  name <> "parent" -> chain h v nodes = true -> chain h' v nodes = true.
Proof.
  intros v Hname. revert v.
  induction nodes as [|l0 nodes IH]; intros v Hch; [done|].
  destruct v as [| | | |l']; try done. cbn [chain] in *.
  apply andb_prop in Hch as [Heq Hrest]. rewrite Heq. cbn [andb].
  unfold h'. destruct (decide (l = l0)) as [<-|Hne].
  - rewrite lookup_insert_eq, lookup_insert_ne by done.
    rewrite Hl in Hrest. destruct (attrs !! "parent"); [|done]. by apply IH.
  - rewrite lookup_insert_ne by done.
    destruct (h !! l0) as [[d|a c|sc|nl]|]; try done.
    destruct (a !! "parent"); [|done]. by apply IH.
Qed.

End WriteThenRead.

(** X7.  A write through an accessor, then a read, on a chain of owners
    and for a name other than [parent].  Let [l] be the first owner that
    accepts the write.  If no owner before [l] holds the name, the read
    through the accessor returns the value written and notifies with
    [l], and so does the lookup through a scope on the same owner that
    has the name in none of its tiers.  If an owner [l0] before [l] holds
    the name, which it then holds without accepting writes to it, the
    write is not seen: the read still returns the value of the nearest
    such [l0]. *)
Theorem X7_setitem_then_getitem fuel self nl nodes pre l post name v st :
  heap st !! self = Some (ONonlocals nl) ->
  chain (heap st) (_nls_obj nl) nodes = true ->
  nodes = pre ++ l :: post ->
  (forall l', l' ∈ pre -> accepts_at (heap st) l' name = false) ->
  accepts_at (heap st) l name = true ->
  name <> "parent" ->
  (length nodes <= fuel)%nat ->
  let st1 := snd (Nonlocals.__setitem__ fuel self name v st) in
  ((forall l', l' ∈ pre -> attr_at (heap st) l' name = None) ->
   Nonlocals.__getitem__ fuel self name st1
   = (Ok v, notified (_nls_listener nl) (VRef l) name v st1) /\
   forall s sc t,
     heap st !! s = Some (OScope sc) ->
     tiers_of (heap st) sc = Some t ->
     tier_lookup t name = None ->
     _obj sc = _nls_obj nl ->
     DynamicScope.__getitem__ fuel s name st1
     = (Ok v, notified (_listener sc) (VRef l) name v st1)) /\
  (forall pre1 l0 pre2 u,
     pre = pre1 ++ l0 :: pre2 ->
     (forall l', l' ∈ pre1 -> attr_at (heap st) l' name = None) ->
     attr_at (heap st) l0 name = Some u ->
     Nonlocals.__getitem__ fuel self name st1
     = (Ok u, notified (_nls_listener nl) (VRef l0) name u st1)).
Proof.
  intros Hself Hch -> Hrej Hacc Hname Hfuel st1.
  unfold accepts_at in Hacc.
  destruct (heap st !! l) as [[d|attrs accepts|sc'|nl']|] eqn:Hl; try done.
  assert (st1 = MkState (<[l := OInst (<[name := v]> attrs) accepts]> (heap st))
                        (trace st)) as Hst1.
  { unfold st1, Nonlocals.__setitem__, Nonlocals.load. rewrite bind_read, Hself.
    rewrite (setitem_walk_accept name v st l post attrs accepts pre fuel); try done.
    rewrite length_app in Hfuel. simpl in Hfuel. lia. }
  clearbody st1. subst st1.
  set (st1 := MkState (<[l := OInst (<[name := v]> attrs) accepts]> (heap st))
                      (trace st)).
  assert (forall l', l' ∈ pre -> l' <> l) as Hpre_ne.
  { intros l' Hin ->. specialize (Hrej _ Hin). unfold accepts_at in Hrej.
    rewrite Hl in Hrej. congruence. }
  assert (heap st1 !! self = Some (ONonlocals nl)) as Hself1.
  { unfold st1. simpl. rewrite lookup_insert_ne; [done|]. intros ->. congruence. }
  assert (chain (heap st1) (_nls_obj nl) (pre ++ l :: post) = true) as Hch1.
  { by apply write_chain. }
  split.
  - intros Hnone.
    assert (first_holder (heap st1) name (pre ++ l :: post) = Some (l, v)) as Hfirst.
    { apply first_holder_app.
      - intros l' Hin. unfold st1. simpl.
        rewrite write_attr_at_other by auto. by apply Hnone.
      - by apply write_attr_at_same. }
    split.
    + rewrite (nonlocals_getitem_find _ _ _ _ _ Hself1).
      by rewrite (find_attr_chain _ _ _ _ _ Hch1 Hfuel), Hfirst.
    + intros s sc t Hs Ht Hnot Hobj.
      assert (heap st1 !! s = Some (OScope sc)) as Hs1.
      { unfold st1. simpl. rewrite lookup_insert_ne; [done|]. intros ->. congruence. }
      assert (tiers_of (heap st1) sc = Some t) as Ht1.
      { unfold st1. simpl. by rewrite (write_tiers_of _ _ _ _ _ _ Hl). }
      rewrite (scope_getitem_tiers _ _ _ _ _ _ Hs1 Ht1), Hnot.
      rewrite (scope_walk_find _ _ _ _ _ _ Hs1), Hobj.
      by rewrite (find_attr_chain _ _ _ _ _ Hch1 Hfuel), Hfirst.
  - intros pre1 l0 pre2 u -> Hnone Hu.
    assert (first_holder (heap st1) name ((pre1 ++ l0 :: pre2) ++ l :: post)
            = Some (l0, u)) as Hfirst.
    { rewrite <- app_assoc. cbn [app]. apply first_holder_app.
      - intros l' Hin. unfold st1. simpl.
        rewrite write_attr_at_other; [by apply Hnone|].
        apply Hpre_ne. apply elem_of_app. by left.
      - unfold st1. simpl. rewrite write_attr_at_other; [done|].
        apply Hpre_ne. apply elem_of_app. right. left. }
    rewrite (nonlocals_getitem_find _ _ _ _ _ Hself1).
    by rewrite (find_attr_chain _ _ _ _ _ Hch1 Hfuel), Hfirst.
Qed.

(** In the scenario: [c] is written on Mid and read back; once Leaf holds
    a [c] it does not declare, the write on Mid is hidden by it. *)
Lemma X7_setitem_then_getitem_witness :
  fst (Nonlocals.__getitem__ 3 Scenario.nonlocals "c"
         (snd (Nonlocals.__setitem__ 3 Scenario.nonlocals "c" (VInt 8) Scenario.st0)))
  = Ok (VInt 8) /\
  fst (Nonlocals.__getitem__ 3 Scenario.nonlocals "c"
         (snd (Nonlocals.__setitem__ 3 Scenario.nonlocals "c" (VInt 8)
                 Cases.shadowed)))
  = Ok (VInt 1).
Proof.
  assert (forall (P : loc -> Prop), P Scenario.leaf ->
            forall l', l' ∈ [Scenario.leaf] -> P l') as Hone.
  { intros P HP l' Hin. apply list_elem_of_In in Hin. by destruct Hin as [<-|[]]. }
  split.
  - destruct (X7_setitem_then_getitem 3 Scenario.nonlocals Scenario.nonlocals_inst
                [Scenario.leaf; Scenario.mid; Scenario.root]
                [Scenario.leaf] Scenario.mid [Scenario.root] "c" (VInt 8)
                Scenario.st0) as (H & _).
    + reflexivity.
    + reflexivity.
    + reflexivity.
    + apply Hone. reflexivity.
    + reflexivity.
    + discriminate.
    + simpl. lia.
    + destruct H as [H _]; [apply Hone; reflexivity|]. by rewrite H.
  - destruct (X7_setitem_then_getitem 3 Scenario.nonlocals Scenario.nonlocals_inst
                [Scenario.leaf; Scenario.mid; Scenario.root]
                [Scenario.leaf] Scenario.mid [Scenario.root] "c" (VInt 8)
                Cases.shadowed) as (_ & H).
    + reflexivity.
    + reflexivity.
    + reflexivity.
    + apply Hone. reflexivity.
    + reflexivity.
    + discriminate.
    + simpl. lia.
    + rewrite (H [] Scenario.leaf [] (VInt 1)); try reflexivity.
      intros l' Hin. by apply elem_of_nil in Hin.
Defined.

(** ** Levels compose *)

Section Drop.

Context (h : gmap loc object).

Lemma chain_drop : forall nodes v m,
  chain h v nodes = true ->
  (m <= length nodes)%nat ->
  chain h (hop nodes m) (drop m nodes) = true.
Proof.
  induction nodes as [|l nodes IH]; intros v m Hch Hm.
  - destruct m; [|simpl in Hm; lia]. done.
  - destruct m as [|m].
    + rewrite drop_0. by pose proof Hch as [-> _]%chain_cons_inv.
    + destruct (chain_parent _ _ _ _ Hch) as (p & _ & Hch').
      rewrite hop_cons. cbn [drop]. apply (IH p); [done|]. simpl in Hm. lia.
Qed.

Lemma hop_drop nodes m n : hop (drop m nodes) n = hop nodes (m + n).
Proof. unfold hop. by rewrite lookup_drop. Qed.

End Drop.

Lemma alloc_same_data (o : object) st :
  no_data (Some o) = true ->
  same_data (heap st) (heap (snd (alloc o st))).
Proof.
  intros Ho. unfold alloc. simpl. apply same_data_insert; [|done].
  pose proof (is_fresh (dom (heap st))) as Hfresh.
  apply not_elem_of_dom in Hfresh. by rewrite Hfresh.
Qed.

(** The accessor [__call__] makes on a chain, and the state it leaves. *)
Lemma nonlocals_call_result self nl nodes n st :
  heap st !! self = Some (ONonlocals nl) ->
  chain (heap st) (_nls_obj nl) nodes = true ->
  0 <= n <= Z.of_nat (length nodes) ->
  exists a st1,
    Nonlocals.__call__ self (VInt n) st = (Ok (VRef a), st1) /\
    heap st1 !! a
    = Some (ONonlocals (MkNonlocals (hop nodes (Z.to_nat n)) (_nls_listener nl))) /\
    same_data (heap st) (heap st1) /\
    trace st1 = trace st.
Proof.
  intros Hself Hch Hn.
  rewrite (nonlocals_call_chain _ _ _ _ _ Hself Hch). cbn [isinstance_int].
  rewrite decide_True by done.
  eexists _, _. split; [reflexivity|]. cbn [snd heap trace].
  split; [by rewrite lookup_insert_eq|]. split; [|done].
  apply (alloc_same_data (ONonlocals _) st). done.
Qed.

(** X8.  Levels add up.  On a chain of owners, for levels [m] and [n]
    that are not negative, with [m] at most the number of owners: the
    accessor made by [nonlocals(m)(n)] has the anchor and the listener of
    the one made by [nonlocals(m + n)], and when [m + n] exceeds the
    number of owners both the second call of [nonlocals(m)(n)] and
    [nonlocals(m + n)] raise [ValueError]. *)
Theorem X8_levels_add_up self nl nodes m n st :
  heap st !! self = Some (ONonlocals nl) ->
  chain (heap st) (_nls_obj nl) nodes = true ->
  0 <= m <= Z.of_nat (length nodes) ->
  0 <= n ->
  exists a st1,
    Nonlocals.__call__ self (VInt m) st = (Ok (VRef a), st1) /\
    (m + n <= Z.of_nat (length nodes) ->
     exists b c,
       Nonlocals.__call__ a (VInt n) st1
       = (Ok (VRef b),
          MkState (<[b := ONonlocals (MkNonlocals (hop nodes (Z.to_nat (m + n)))
                                                  (_nls_listener nl))]> (heap st1))
                  (trace st1)) /\
       Nonlocals.__call__ self (VInt (m + n)) st
       = (Ok (VRef c),
          MkState (<[c := ONonlocals (MkNonlocals (hop nodes (Z.to_nat (m + n)))
                                                  (_nls_listener nl))]> (heap st))
                  (trace st))) /\
    (Z.of_nat (length nodes) < m + n ->
     Nonlocals.__call__ a (VInt n) st1 = (Raise ValueError, st1) /\
     Nonlocals.__call__ self (VInt (m + n)) st = (Raise ValueError, st)).
Proof.
  intros Hself Hch Hm Hn.
  destruct (nonlocals_call_result _ _ _ m _ Hself Hch Hm)
    as (a & st1 & Hcall & Ha & Hsame & Htrace).
  exists a, st1. split; [done|].
  assert (chain (heap st1) (hop nodes (Z.to_nat m)) (drop (Z.to_nat m) nodes) = true)
    as Hch1.
  { rewrite <- (same_data_chain _ _ Hsame). apply (chain_drop _ _ _ _ Hch). lia. }
  pose proof (nonlocals_call_chain a _ _ (VInt n) st1 Ha Hch1) as Hsecond.
  cbn [isinstance_int _nls_obj _nls_listener] in Hsecond.
  rewrite length_drop in Hsecond.
  pose proof (nonlocals_call_chain self _ _ (VInt (m + n)) st Hself Hch) as Hdirect.
  cbn [isinstance_int] in Hdirect.
  split.
  - intros Hin.
    rewrite decide_True in Hsecond by lia. rewrite decide_True in Hdirect by lia.
    rewrite hop_drop in Hsecond.
    replace (Z.to_nat m + Z.to_nat n)%nat with (Z.to_nat (m + n)) in Hsecond by lia.
    eexists _, _. split; [exact Hsecond|exact Hdirect].
  - intros Hout.
    rewrite decide_False in Hsecond by lia. rewrite decide_False in Hdirect by lia.
    done.
Qed.

(** In the scenario: one level up and then one more is Root, as two
    levels up is. *)
Lemma X8_levels_add_up_witness :
  exists a st1,
    Nonlocals.__call__ Scenario.nonlocals (VInt 1) Scenario.st0 = (Ok (VRef a), st1) /\
    exists b,
      Nonlocals.__call__ a (VInt 1) st1
      = (Ok (VRef b),
         MkState (<[b := ONonlocals (MkNonlocals (VRef Scenario.root)
                                                 (VRef Scenario.listener))]> (heap st1))
                 (trace st1)).
Proof.
  destruct (X8_levels_add_up Scenario.nonlocals Scenario.nonlocals_inst
              [Scenario.leaf; Scenario.mid; Scenario.root] 1 1 Scenario.st0)
    as (a & st1 & Hcall & Hin & _).
  - reflexivity.
  - reflexivity.
  - simpl. lia.
  - lia.
  - exists a, st1. split; [exact Hcall|].
    destruct Hin as (b & c & Hb & _); [simpl; lia|].
    exists b. exact Hb.
Defined.

(** X9.  What an accessor made at level [n] sees.  On a chain of owners
    and for a level from 0 to the number of owners, a lookup through the
    accessor [nonlocals(n)] searches the chain without its first [n]
    owners: it returns the value of the first holder among the remaining
    ones, notifying the listener of the original accessor, and raises
    [KeyError] when none of them holds the name, even if one of the
    first [n] owners does.  At the level equal to the number of owners
    every lookup raises [KeyError]. *)
Theorem X9_level_then_getitem fuel self nl nodes n name st :
  heap st !! self = Some (ONonlocals nl) ->
  chain (heap st) (_nls_obj nl) nodes = true ->
  0 <= n <= Z.of_nat (length nodes) ->
  (length nodes <= fuel)%nat ->
  exists a st1,
    Nonlocals.__call__ self (VInt n) st = (Ok (VRef a), st1) /\
    Nonlocals.__getitem__ fuel a name st1
    = match first_holder (heap st) name (drop (Z.to_nat n) nodes) with
      | Some (l, x) => (Ok x, notified (_nls_listener nl) (VRef l) name x st1)
      | None => (Raise (KeyError name), st1)
      end /\
    (n = Z.of_nat (length nodes) ->
     Nonlocals.__getitem__ fuel a name st1 = (Raise (KeyError name), st1)).
Proof.
  intros Hself Hch Hn Hfuel.
  destruct (nonlocals_call_result _ _ _ n _ Hself Hch Hn)
    as (a & st1 & Hcall & Ha & Hsame & Htrace).
  exists a, st1. split; [done|].
  assert (chain (heap st1) (hop nodes (Z.to_nat n)) (drop (Z.to_nat n) nodes) = true)
    as Hch1.
  { rewrite <- (same_data_chain _ _ Hsame). apply (chain_drop _ _ _ _ Hch). lia. }
  assert (Nonlocals.__getitem__ fuel a name st1
          = match first_holder (heap st) name (drop (Z.to_nat n) nodes) with
            | Some (l, x) => (Ok x, notified (_nls_listener nl) (VRef l) name x st1)
            | None => (Raise (KeyError name), st1)
            end) as Hget.
  { rewrite (nonlocals_getitem_find _ _ _ _ _ Ha). cbn [_nls_obj _nls_listener].
    rewrite (find_attr_chain _ _ _ _ _ Hch1) by (rewrite length_drop; lia).
    rewrite <- (same_data_first_holder _ _ Hsame).
    by destruct (first_holder (heap st) name (drop (Z.to_nat n) nodes)) as [[l x]|]. }
  split; [done|].
  intros ->. rewrite Hget, Nat2Z.id, drop_all. done.
Qed.

(** In the scenario: [y] is held by Leaf and Mid, so two levels up it is
    not found. *)
Lemma X9_level_then_getitem_witness :
  exists a st1,
    Nonlocals.__call__ Scenario.nonlocals (VInt 2) Scenario.st0 = (Ok (VRef a), st1) /\
    Nonlocals.__getitem__ 3 a "y" st1 = (Raise (KeyError "y"), st1).
Proof.
  destruct (X9_level_then_getitem 3 Scenario.nonlocals Scenario.nonlocals_inst
              [Scenario.leaf; Scenario.mid; Scenario.root] 2 "y" Scenario.st0)
    as (a & st1 & Hcall & Hget & _).
  - reflexivity.
  - reflexivity.
  - simpl. lia.
  - simpl. lia.
  - exists a, st1. split; [exact Hcall|]. exact Hget.
Defined.

(** ** Scope assignments and accessors *)

Lemma scope_setitem_result self sc dO name v st :
  heap st !! self = Some (OScope sc) ->
  dict_at (heap st) (_overrides sc) = Some dO ->
  exists lo,
    _overrides sc = VRef lo /\
    heap st !! lo = Some (ODict dO) /\
    DynamicScope.__setitem__ self name v st
    = (Ok tt, MkState (<[lo := ODict (<[name := v]> dO)]> (heap st)) (trace st)).
Proof.
  intros Hself HO.
  unfold DynamicScope.__setitem__, DynamicScope.load. rewrite bind_read, Hself.
  destruct (_overrides sc) as [| | | |lo]; try done.
  simpl in HO. unfold py_setitem.
  destruct (heap st !! lo) as [[d|?|?|?]|] eqn:Hlo; try done.
  injection HO as ->. by exists lo.
Qed.

Lemma dict_update_owner_view h lo d d' l :
  h !! lo = Some (ODict d) ->
  owner_view (<[lo := ODict d']> h) l = owner_view h l.
Proof.
  intros Hlo. unfold owner_view.
  destruct (decide (lo = l)) as [<-|Hne].
  - by rewrite lookup_insert_eq, Hlo.
  - by rewrite lookup_insert_ne.
Qed.

(** X10.  An assignment through a scope is invisible to every accessor,
    provided the overrides of the scope are a dict of their own and not
    the attribute dictionary of an owner.  In this development an owner
    keeps its attributes in itself ([OInst]) and a dict is another kind
    of object ([ODict]): the second hypothesis places the overrides
    among the dicts, and the third says in so many words that no owner
    lives at their location.  A dict passed as [owner.__dict__] is
    outside this statement; there the assignment sets the attribute of
    the owner.  After [scope[name] = v] on such a scope,
    [Nonlocals.__getitem__] of any name through any accessor has the
    outcome it had before the assignment, and makes the same call of the
    listener, if any: the accessor never consults the overrides. *)
Theorem X10_assign_invisible_to_accessor fuel s sc dO n nl name v name' st :
  heap st !! s = Some (OScope sc) ->
  dict_at (heap st) (_overrides sc) = Some dO ->
  (forall lo, _overrides sc = VRef lo -> owner_view (heap st) lo = None) ->
  heap st !! n = Some (ONonlocals nl) ->
  let st1 := snd (DynamicScope.__setitem__ s name v st) in
  fst (Nonlocals.__getitem__ fuel n name' st1)
  = fst (Nonlocals.__getitem__ fuel n name' st) /\
  trace (snd (Nonlocals.__getitem__ fuel n name' st1))
  = trace (snd (Nonlocals.__getitem__ fuel n name' st)).
Proof.
  intros Hs HO _ Hn st1.
  destruct (scope_setitem_result _ _ _ name v _ Hs HO) as (lo & Hov & Hlo & Hset).
  unfold st1. rewrite Hset. cbn [snd]. clear st1.
  set (st1 := MkState (<[lo := ODict (<[name := v]> dO)]> (heap st)) (trace st)).
  assert (heap st1 !! n = Some (ONonlocals nl)) as Hn1.
  { unfold st1. simpl. rewrite lookup_insert_ne; [done|]. intros ->. congruence. }
  rewrite (nonlocals_getitem_find _ _ _ _ _ Hn1), (nonlocals_getitem_find _ _ _ _ _ Hn).
  assert (find_attr fuel (heap st1) name' (_nls_obj nl)
          = find_attr fuel (heap st) name' (_nls_obj nl)) as ->.
  { apply owner_ext_find_attr. intros l. unfold st1. simpl.
    by apply (dict_update_owner_view _ _ dO). }
  destruct (find_attr fuel (heap st) name' (_nls_obj nl)) as [[o x]| | |]; try done.
  simpl. unfold notified. by destruct (is_None (_nls_listener nl)).
Qed.

(** In the scenario: [c] is assigned in the scope, and the accessor still
    reads the [c] of Mid. *)
Lemma X10_assign_invisible_to_accessor_witness :
  fst (Nonlocals.__getitem__ 3 Scenario.nonlocals "c"
         (snd (DynamicScope.__setitem__ Scenario.scope "c" (VInt 0) Scenario.st0)))
  = Ok (VInt 3).
Proof.
  destruct (X10_assign_invisible_to_accessor 3 Scenario.scope Scenario.scope_inst ∅
              Scenario.nonlocals Scenario.nonlocals_inst "c" (VInt 0) "c" Scenario.st0)
    as (H & _).
  - reflexivity.
  - reflexivity.
  - intros lo [= <-]. reflexivity.
  - reflexivity.
  - by rewrite H.
Defined.

(** ** What a write may change *)

Lemma setitem_walk_effect name x : forall fuel parent st,
  (fst (Nonlocals.setitem_walk fuel name x parent st) = Ok tt /\
   exists l attrs accepts,
     heap st !! l = Some (OInst attrs accepts) /\
     accepts name = true /\
     snd (Nonlocals.setitem_walk fuel name x parent st)
     = MkState (<[l := OInst (<[name := x]> attrs) accepts]> (heap st)) (trace st)) \/
  (fst (Nonlocals.setitem_walk fuel name x parent st) <> Ok tt /\
   snd (Nonlocals.setitem_walk fuel name x parent st) = st).
Proof.
  induction fuel as [|fuel IH]; intros parent st; simpl;
    destruct (is_None parent); try (by right).
  unfold try_except_AttributeError, py_setattr.
  destruct parent as [| | | |l]; try (by right).
  destruct (heap st !! l) as [[d|attrs accepts|sc|nl]|] eqn:Hl; try (by right).
  destruct (accepts name) eqn:Hacc.
  - left. split; [done|]. by exists l, attrs, accepts.
  - unfold py_getattr. rewrite bind_read.
    destruct (getattr_in (heap st) (VRef l) "parent"); try (by right). apply IH.
Qed.

(** X11.  [Nonlocals.__setitem__] changes at most one attribute of one
    object, on every heap.  If the call succeeds, the state after it is
    the state before it with the attribute [name] of one owner object,
    one that accepts the write, set to the value.  If it does not
    succeed, however it ends, the state is unchanged. *)
Theorem X11_setitem_effect fuel self name v st :
  (fst (Nonlocals.__setitem__ fuel self name v st) = Ok tt ->
   exists l attrs accepts,
     heap st !! l = Some (OInst attrs accepts) /\
     accepts name = true /\
     snd (Nonlocals.__setitem__ fuel self name v st)
     = MkState (<[l := OInst (<[name := v]> attrs) accepts]> (heap st)) (trace st)) /\
  (fst (Nonlocals.__setitem__ fuel self name v st) <> Ok tt ->
   snd (Nonlocals.__setitem__ fuel self name v st) = st).
Proof.
  unfold Nonlocals.__setitem__, Nonlocals.load. rewrite bind_read.
  destruct (heap st !! self) as [[d|a c|sc|nl]|]; try done.
  destruct (setitem_walk_effect name v fuel (_nls_obj nl) st)
    as [[Hok Heff]|[Hfail Hst]]; split; done.
Qed.

(** In the scenario: a write no owner accepts, and one Root accepts. *)
Lemma X11_setitem_effect_witness :
  snd (Nonlocals.__setitem__ 3 Scenario.nonlocals "q" (VInt 1) Scenario.st0)
  = Scenario.st0 /\
  exists l attrs accepts,
    heap Scenario.st0 !! l = Some (OInst attrs accepts) /\
    accepts "z" = true /\
    snd (Nonlocals.__setitem__ 3 Scenario.nonlocals "z" (VInt 5) Scenario.st0)
    = MkState (<[l := OInst (<["z" := VInt 5]> attrs) accepts]> (heap Scenario.st0))
              (trace Scenario.st0).
Proof.
  split.
  - apply (X11_setitem_effect 3 Scenario.nonlocals "q" (VInt 1) Scenario.st0).
    discriminate.
  - apply (X11_setitem_effect 3 Scenario.nonlocals "z" (VInt 5) Scenario.st0).
    reflexivity.
Defined.

(** ** Hierarchies with a parent cycle *)

Section Cycles.

Context (h : gmap loc object) (region : list loc).

Lemma parent_closed_inv test l :
  parent_closed h test region = true ->
  l ∈ region ->
  exists attrs accepts p,
    h !! l = Some (OInst attrs accepts) /\
    test attrs accepts = true /\
    attrs !! "parent" = Some (VRef p) /\
    p ∈ region.
Proof.
  intros Hclosed Hin. unfold parent_closed in Hclosed.
  rewrite forallb_forall in Hclosed. apply list_elem_of_In in Hin.
  specialize (Hclosed _ Hin).
  destruct (h !! l) as [[d|attrs accepts|sc|nl]|]; try done.
  apply andb_prop in Hclosed as [Htest Hparent].
  destruct (attrs !! "parent") as [[| | | |p]|] eqn:Hp; try done.
  apply bool_decide_eq_true in Hparent. by exists attrs, accepts, p.
Qed.

Lemma find_attr_cycle name :
  parent_closed h (lacks name) region = true ->
  forall fuel l, l ∈ region -> find_attr fuel h name (VRef l) = Diverge.
Proof.
  intros Hclosed. induction fuel as [|fuel IH]; intros l Hin; [done|].
  destruct (parent_closed_inv _ _ Hclosed Hin)
    as (attrs & accepts & p & Hl & Hlacks & Hp & Hpin).
  apply bool_decide_eq_true in Hlacks.
  cbn [find_attr is_None getattr_in]. rewrite Hl, Hlacks, Hp. by apply IH.
Qed.

End Cycles.

Lemma setitem_walk_cycle name x st region :
  parent_closed (heap st) (rejects name) region = true ->
  forall fuel l, l ∈ region ->
    Nonlocals.setitem_walk fuel name x (VRef l) st = (Diverge, st).
Proof.
  intros Hclosed. induction fuel as [|fuel IH]; intros l Hin; [done|].
  destruct (parent_closed_inv _ _ _ _ Hclosed Hin)
    as (attrs & accepts & p & Hl & Hrej & Hp & Hpin).
  apply negb_true_iff in Hrej.
  cbn [Nonlocals.setitem_walk is_None].
  unfold try_except_AttributeError, py_setattr. rewrite Hl, Hrej.
  unfold py_getattr. rewrite bind_read. cbn [getattr_in]. rewrite Hl, Hp.
  by apply IH.
Qed.

(** X12.  The walks stop only on a hit or on an absent parent.  When the
    owner a scope or an accessor starts from lies in a part of the
    hierarchy that [parent] never leaves, a parent cycle, then no amount
    of fuel lets the call end: for a name held by no owner of that part
    (and bound in no tier of the scope) the lookups through the scope and
    through the accessor exhaust every fuel, and so does a write through
    the accessor of a name that every owner of that part rejects. *)
Theorem X12_cycle_never_returns region l name st :
  l ∈ region ->
  (parent_closed (heap st) (lacks name) region = true ->
   (forall fuel self nl,
      heap st !! self = Some (ONonlocals nl) ->
      _nls_obj nl = VRef l ->
      Nonlocals.__getitem__ fuel self name st = (Diverge, st)) /\
   (forall fuel self sc t,
      heap st !! self = Some (OScope sc) ->
      tiers_of (heap st) sc = Some t ->
      tier_lookup t name = None ->
      _obj sc = VRef l ->
      DynamicScope.__getitem__ fuel self name st = (Diverge, st))) /\
  (parent_closed (heap st) (rejects name) region = true ->
   forall fuel self nl v,
     heap st !! self = Some (ONonlocals nl) ->
     _nls_obj nl = VRef l ->
     Nonlocals.__setitem__ fuel self name v st = (Diverge, st)).
Proof.
  intros Hin. split.
  - intros Hclosed. split.
    + intros fuel self nl Hself Hobj.
      rewrite (nonlocals_getitem_find _ _ _ _ _ Hself), Hobj.
      by rewrite (find_attr_cycle _ _ _ Hclosed).
    + intros fuel self sc t Hself Ht Hnone Hobj.
      rewrite (scope_getitem_tiers _ _ _ _ _ _ Hself Ht), Hnone.
      rewrite (scope_walk_find _ _ _ _ _ _ Hself), Hobj.
      by rewrite (find_attr_cycle _ _ _ Hclosed).
  - intros Hclosed fuel self nl v Hself Hobj.
    unfold Nonlocals.__setitem__, Nonlocals.load. rewrite bind_read, Hself, Hobj.
    by apply (setitem_walk_cycle _ _ _ region).
Qed.

(** Two owners that are each other's parent. *)
Lemma X12_cycle_never_returns_witness :
  Nonlocals.__getitem__ 50 Cases.nonlocals "k" Cases.cyclic = (Diverge, Cases.cyclic) /\
  DynamicScope.__getitem__ 50 Cases.scope "k" Cases.cyclic = (Diverge, Cases.cyclic) /\
  Nonlocals.__setitem__ 50 Cases.nonlocals "k" (VInt 1) Cases.cyclic
  = (Diverge, Cases.cyclic).
Proof.
  destruct (X12_cycle_never_returns [Cases.ping; Cases.pong] Cases.ping "k"
              Cases.cyclic) as (Hread & Hwrite).
  - apply list_elem_of_In. left. reflexivity.
  - destruct Hread as (Hnls & Hscope); [reflexivity|].
    refine (conj _ (conj _ _)).
    + apply (Hnls 50%nat Cases.nonlocals Cases.nonlocals_inst); reflexivity.
    + apply (Hscope 50%nat Cases.scope Cases.scope_inst
               (MkTiers ∅ ∅ (list_to_map [("__builtins__", VRef Cases.empty_dict)]) ∅));
        solve [reflexivity | vm_compute; reflexivity].
    + apply (Hwrite eq_refl 50%nat Cases.nonlocals Cases.nonlocals_inst); reflexivity.
Defined.

(** ** Scopes hold references *)

Lemma scope_getitem_overrides fuel self sc dO name v st :
  heap st !! self = Some (OScope sc) ->
  dict_at (heap st) (_overrides sc) = Some dO ->
  dO !! name = Some v ->
  DynamicScope.__getitem__ fuel self name st = (Ok v, st).
Proof.
  intros Hself HO Hv.
  rewrite (scope_getitem_find _ _ _ _ _ Hself). unfold scope_find, tier_find.
  rewrite (dict_at_contains _ _ _ name HO), Hv.
  rewrite bool_decide_eq_true_2 by by eexists.
  simpl. by rewrite (dict_at_getitem _ _ _ name HO), Hv.
Qed.

Lemma scope_getitem_identifiers fuel self sc dO dI name v st :
  heap st !! self = Some (OScope sc) ->
  dict_at (heap st) (_overrides sc) = Some dO ->
  dO !! name = None ->
  dict_at (heap st) (_identifiers sc) = Some dI ->
  dI !! name = Some v ->
  DynamicScope.__getitem__ fuel self name st = (Ok v, st).
Proof.
  intros Hself HO Hno HI Hv.
  rewrite (scope_getitem_find _ _ _ _ _ Hself). unfold scope_find, tier_find.
  rewrite (dict_at_contains _ _ _ name HO), Hno.
  rewrite bool_decide_eq_false_2 by (by intros [? [=]]). simpl.
  rewrite (dict_at_contains _ _ _ name HI), Hv.
  rewrite bool_decide_eq_true_2 by by eexists.
  simpl. by rewrite (dict_at_getitem _ _ _ name HI), Hv.
Qed.

(** X13.  A scope holds the mappings it was constructed with by
    reference, not as copies.  After
    [s = DynamicScope(obj, identifiers, overrides, f_globals, listener)],
    which allocates [s] at a location that held nothing, a binding
    [identifiers[name] = v] made on the identifiers dict itself is what
    the next [s[name]] returns, without any listener call, for every name
    that the overrides did not bind when the scope was made. *)
Theorem X13_scope_keeps_references fuel obj ids ovr glb lst dO dI name v st :
  dict_at (heap st) ovr = Some dO ->
  dO !! name = None ->
  dict_at (heap st) ids = Some dI ->
  exists s st1,
    DynamicScope.__init__ obj ids ovr glb lst st = (Ok (VRef s), st1) /\
    heap st !! s = None /\
    fst (py_setitem ids name v st1) = Ok tt /\
    DynamicScope.__getitem__ fuel s name (snd (py_setitem ids name v st1))
    = (Ok v, snd (py_setitem ids name v st1)).
Proof.
  intros HO Hno HI.
  pose proof (is_fresh (dom (heap st))) as Hfresh.
  apply not_elem_of_dom in Hfresh.
  set (s := fresh (dom (heap st))) in *.
  set (sc := MkDynamicScope obj ids ovr glb lst).
  exists s, (MkState (<[s := OScope sc]> (heap st)) (trace st)).
  split; [done|]. split; [done|].
  destruct ids as [| | | |li]; try done. simpl in HI.
  destruct (heap st !! li) as [[d|?|?|?]|] eqn:Hli; try done. injection HI as ->.
  assert (s <> li) as Hne by congruence.
  unfold py_setitem. cbn [heap trace]. rewrite lookup_insert_ne, Hli by done.
  cbn [fst snd]. split; [done|].
  set (st2 := MkState _ _).
  assert (heap st2 !! s = Some (OScope sc)) as Hs2.
  { unfold st2. simpl. rewrite lookup_insert_ne by done. by rewrite lookup_insert_eq. }
  assert (dict_at (heap st2) (VRef li) = Some (<[name := v]> dI)) as HI2.
  { unfold st2. simpl. by rewrite lookup_insert_eq. }
  destruct ovr as [| | | |lo]; try done.
  destruct (decide (lo = li)) as [->|Hov].
  - apply (scope_getitem_overrides _ _ sc (<[name := v]> dI)); try done.
    by rewrite lookup_insert_eq.
  - apply (scope_getitem_identifiers _ _ sc dO (<[name := v]> dI)); try done.
    + simpl in HO |- *. unfold st2. simpl.
      rewrite !lookup_insert_ne; [done| |congruence].
      intros <-. by rewrite Hfresh in HO.
    + by rewrite lookup_insert_eq.
Qed.

(** In the scenario: a second scope on the same dicts sees a binding made
    later. *)
Lemma X13_scope_keeps_references_witness :
  exists s st1,
    DynamicScope.__init__ (VRef Scenario.leaf) (VRef Scenario.identifiers)
      (VRef Scenario.overrides) (VRef Scenario.globals) VNone Scenario.st0
    = (Ok (VRef s), st1) /\
    DynamicScope.__getitem__ 0 s "late"
      (snd (py_setitem (VRef Scenario.identifiers) "late" (VInt 4) st1))
    = (Ok (VInt 4), snd (py_setitem (VRef Scenario.identifiers) "late" (VInt 4) st1)).
Proof.
  destruct (X13_scope_keeps_references 0 (VRef Scenario.leaf)
              (VRef Scenario.identifiers) (VRef Scenario.overrides)
              (VRef Scenario.globals) VNone ∅ (list_to_map [("a", VInt 1)])
              "late" (VInt 4) Scenario.st0) as (s & st1 & Hinit & _ & _ & Hget).
  - reflexivity.
  - reflexivity.
  - vm_compute. reflexivity.
  - exists s, st1. split; [exact Hinit|exact Hget].
Defined.

(** X14.  After [scope[name] = v], on a scope whose overrides are a
    mapping, [name in scope] is [True]: for every fuel, whatever the
    other tiers and the owners hold, with no listener call and with the
    state left as the assignment made it. *)
Theorem X14_assign_then_contains fuel self sc dO name v st :
  heap st !! self = Some (OScope sc) ->
  dict_at (heap st) (_overrides sc) = Some dO ->
  DynamicScope.__contains__ fuel self (VStr name)
    (snd (DynamicScope.__setitem__ self name v st))
  = (Ok true, snd (DynamicScope.__setitem__ self name v st)).
Proof.
  intros Hself HO.
  destruct (scope_setitem_result _ _ _ name v _ Hself HO) as (lo & Hov & Hlo & Hset).
  rewrite Hset. cbn [snd].
  set (st1 := MkState _ _).
  assert (heap st1 !! self = Some (OScope sc)) as Hself1.
  { unfold st1. simpl. rewrite lookup_insert_ne; [done|]. intros ->. congruence. }
  assert (dict_at (heap st1) (_overrides sc) = Some (<[name := v]> dO)) as HO1.
  { rewrite Hov. unfold st1. simpl. by rewrite lookup_insert_eq. }
  rewrite (scope_contains_str _ _ _ _ _ Hself1).
  rewrite (scope_getitem_muted_fst _ _ _ _ _ Hself1).
  rewrite (scope_getitem_overrides fuel _ _ _ name v _ Hself1 HO1); [done|].
  by rewrite lookup_insert_eq.
Qed.

(** In the scenario, with no fuel at all. *)
Lemma X14_assign_then_contains_witness :
  fst (DynamicScope.__contains__ 0 Scenario.scope (VStr "x")
         (snd (DynamicScope.__setitem__ Scenario.scope "x" (VInt 7) Scenario.st0)))
  = Ok true.
Proof.
  rewrite (X14_assign_then_contains 0 Scenario.scope Scenario.scope_inst ∅ "x" (VInt 7)
             Scenario.st0); reflexivity.
Defined.

(** * Properties of the workbench *)

(** ** Import paths *)

Section Paths.

Lemma rsplit_dot_None path :
  Workbench.rsplit_dot path = None <-> Workbench.contains_dot path = false.
Proof.
  induction path as [|c rest IH]; simpl; [done|].
  destruct (Workbench.rsplit_dot rest) as [[before item]|].
  - split; [done|]. intros [_ Hrest]%orb_false_elim.
    apply IH in Hrest. done.
  - destruct (Ascii.eqb c Workbench.dot); simpl; [done|].
    split; [intros _; by apply IH|done].
Qed.

(** The split is at the last dot. *)
Lemma rsplit_dot_append item : forall before,
  Workbench.contains_dot item = false ->
  Workbench.rsplit_dot (String.append before (String Workbench.dot item))
  = Some (before, item).
Proof.
  intros before Hitem. apply rsplit_dot_None in Hitem.
  induction before as [|c before IH]; simpl.
  - by rewrite Hitem.
  - by rewrite IH.
Qed.

Lemma contains_dot_append before item :
  Workbench.contains_dot (String.append before (String Workbench.dot item)) = true.
Proof.
  induction before as [|c before IH]; simpl; [done|].
  rewrite IH. apply orb_true_r.
Qed.

End Paths.

(** X15.  [Workbench._import_object] splits a dotted path at its last
    dot.  For a path [before.item] where [item] has no dot and [before]
    is not empty, it imports the module [before]: when the import
    returns, the result is the attribute [item] of the module, or
    [ImportError] when the module lacks it; when the import raises,
    [ImportError] or anything else, that exception comes out.  For a
    path without a dot that is not empty, the result is the module of
    that name, or the exception its import raises.  When the module name
    is empty, for a path [.item] and for the empty path, the result is
    the [ValueError] of [__import__], which is not an [ImportError]. *)
Theorem X15_import_object load_module has_attr :
  (forall before item,
     before <> "" ->
     Workbench.contains_dot item = false ->
     Workbench._import_object load_module has_attr
       (String.append before (String Workbench.dot item))
     = match load_module before with
       | Workbench.Imported _ =>
           if has_attr before item
           then Workbench.Imported (Workbench.Attribute before item)
           else Workbench.ImportError_
       | Workbench.ImportError_ => Workbench.ImportError_
       | Workbench.Raised e => Workbench.Raised e
       end) /\
  (forall item,
     Workbench.contains_dot item = false ->
     Workbench._import_object load_module has_attr (String Workbench.dot item)
     = Workbench.Raised Workbench.ValueError_) /\
  (forall path,
     path <> "" ->
     Workbench.contains_dot path = false ->
     Workbench._import_object load_module has_attr path
     = match load_module path with
       | Workbench.Imported _ => Workbench.Imported (Workbench.Module_ path)
       | Workbench.ImportError_ => Workbench.ImportError_
       | Workbench.Raised e => Workbench.Raised e
       end) /\
  Workbench._import_object load_module has_attr ""
  = Workbench.Raised Workbench.ValueError_.
Proof.
  refine (conj _ (conj _ (conj _ _))).
  - intros before item Hbefore%String.eqb_neq Hitem.
    unfold Workbench._import_object, Workbench.__import__.
    rewrite contains_dot_append, (rsplit_dot_append _ _ Hitem), Hbefore.
    cbn [negb]. by destruct (load_module before).
  - intros item Hitem.
    unfold Workbench._import_object, Workbench.__import__.
    pose proof (contains_dot_append "" item) as Hdot.
    pose proof (rsplit_dot_append item "" Hitem) as Hsplit.
    change (String.append "" (String Workbench.dot item))
      with (String Workbench.dot item) in Hdot, Hsplit.
    by rewrite Hdot, Hsplit.
  - intros path Hpath%String.eqb_neq Hdot.
    unfold Workbench._import_object, Workbench.__import__.
    by rewrite Hdot, Hpath.
  - reflexivity.
Qed.

(** The class path [app.ui.Editor]: the module is [app.ui].  The class
    path [.Editor]: the module name is empty. *)
Lemma X15_import_object_witness :
  Workbench._import_object Studio.load_module Studio.has_attr "app.ui.Editor"
  = Workbench.Imported (Workbench.Attribute "app.ui" "Editor") /\
  Workbench._import_object Studio.load_module Studio.has_attr ".Editor"
  = Workbench.Raised Workbench.ValueError_ /\
  Workbench._import_object Studio.load_module Studio.has_attr "app"
  = Workbench.Imported (Workbench.Module_ "app").
Proof.
  destruct (X15_import_object Studio.load_module Studio.has_attr)
    as (Hdotted & Hempty & Hplain & _).
  refine (conj _ (conj _ _)).
  - apply (Hdotted "app.ui" "Editor"); [discriminate|reflexivity].
  - apply (Hempty "Editor"). reflexivity.
  - apply (Hplain "app"); [discriminate|reflexivity].
Defined.

(** An empty module name in the two callers: the [ValueError] is not an
    [ImportError], so it comes out of [_create_extension_object] for an
    empty class path and of [_create_plugin] for the class path
    [.Editor], with no warning; [_create_plugin] does not import an
    empty class path at all. *)
Example studio_empty_module_name :
  Workbench._create_extension_object Studio.load_module Studio.has_attr
    Studio.is_callable Studio.makes_ExtensionObject
    (Workbench.MkExtension "core" "") Studio.empty
  = (Workbench.Throw Workbench.ValueError_, Studio.empty) /\
  Workbench._create_plugin Studio.load_module Studio.has_attr
    Studio.is_callable Studio.makes_Plugin
    (Studio.manifest_of "core" ".Editor") Studio.empty
  = (Workbench.Throw Workbench.ValueError_, Studio.empty) /\
  fst (Workbench._create_plugin Studio.load_module Studio.has_attr
         Studio.is_callable Studio.makes_Plugin
         (Studio.manifest_of "core" "") Studio.empty)
  = Workbench.Return (Some (Workbench.MkInstance None 0)).
Proof. by refine (conj eq_refl (conj eq_refl eq_refl)). Qed.

(** ** Registration *)

(** X16.  [Workbench.register].  When the manifest cannot be made the
    exception comes out and the workbench is unchanged.  Otherwise the
    call returns, and [get_manifest] of the id then gives the manifest
    that was registered first under it: the new one if the id was free,
    the one already there if not, with a warning.  In both cases the
    registry is handed the extension points and then the extensions of
    the new manifest, those of an ignored duplicate too, and the plugins
    are unchanged. *)
Theorem X16_register {EP : Type} (create_manifest : string -> option (Workbench.PluginManifest EP))
  data (wb : Workbench.t EP) :
  (create_manifest data = None ->
   Workbench.register create_manifest data wb = (Workbench.Throw Workbench.ManifestError, wb)) /\
  (forall manifest,
     create_manifest data = Some manifest ->
     let r := Workbench.register create_manifest data wb in
     fst r = Workbench.Return tt /\
     Workbench._plugins (snd r) = Workbench._plugins wb /\
     (Workbench._manifests wb !! Workbench.id manifest = None ->
      Workbench._manifests (snd r)
      = <[Workbench.id manifest := manifest]> (Workbench._manifests wb) /\
      fst (Workbench.get_manifest (Workbench.id manifest) (snd r))
      = Workbench.Return (Some manifest) /\
      Workbench.calls (snd r)
      = Workbench.calls wb ++
        [Workbench.AddExtensionPoints (Workbench.extension_points manifest);
         Workbench.AddExtensions (Workbench.extensions manifest)]) /\
     (forall first,
        Workbench._manifests wb !! Workbench.id manifest = Some first ->
        Workbench._manifests (snd r) = Workbench._manifests wb /\
        fst (Workbench.get_manifest (Workbench.id manifest) (snd r))
        = Workbench.Return (Some first) /\
        Workbench.calls (snd r)
        = Workbench.calls wb ++
          [Workbench.Warn (Workbench.AlreadyRegistered (Workbench.id manifest));
           Workbench.AddExtensionPoints (Workbench.extension_points manifest);
           Workbench.AddExtensions (Workbench.extensions manifest)])).
Proof.
  split.
  - intros Hnone. unfold Workbench.register. by rewrite Hnone.
  - intros manifest Hsome r. subst r. unfold Workbench.register. rewrite Hsome.
    unfold Workbench.then_, Workbench.manifests_get. cbn [fst snd].
    destruct (Workbench._manifests wb !! Workbench.id manifest) as [first|] eqn:Hid;
      simpl; refine (conj eq_refl (conj eq_refl (conj _ _))); try done.
    + intros first' [= <-]. by rewrite Hid, <- !app_assoc.
    + intros _. by rewrite lookup_insert_eq, <- app_assoc.
Qed.

(** The same data registered twice. *)
Lemma X16_register_witness :
  Workbench.calls (snd (Studio.register "editor" (snd (Studio.register "editor"
                                                         Studio.empty))))
  = [Workbench.AddExtensionPoints ["editor.point"];
     Workbench.AddExtensions [Workbench.MkExtension "editor" "app.ui.Panel"];
     Workbench.Warn (Workbench.AlreadyRegistered "editor");
     Workbench.AddExtensionPoints ["editor.point"];
     Workbench.AddExtensions [Workbench.MkExtension "editor" "app.ui.Panel"]].
Proof.
  destruct (X16_register Studio.create_manifest "editor"
              (snd (Studio.register "editor" Studio.empty))) as (_ & H).
  destruct (H (Studio.manifest_of "editor" "app.ui.Editor") eq_refl)
    as (_ & _ & _ & Hdup).
  destruct (Hdup (Studio.manifest_of "editor" "app.ui.Editor")) as (_ & _ & Hcalls).
  - reflexivity.
  - exact Hcalls.
Defined.

(** X17.  [Workbench.unregister].  For an id that is not registered the
    call only warns: manifests, plugins and registry are left alone.
    For a registered id it removes the id from the manifests and from the
    plugins; a plugin that was active is stopped and detached from the
    workbench and from its manifest, and this comes before the registry
    is told to remove the extensions and then the extension points;
    afterwards [get_manifest] gives [None]. *)
Theorem X17_unregister {EP : Type} plugin_id (wb : Workbench.t EP) :
  (Workbench._manifests wb !! plugin_id = None ->
   Workbench.unregister plugin_id wb
   = (Workbench.Return tt,
      Workbench.MkWorkbench (Workbench._manifests wb) (Workbench._plugins wb)
        (Workbench.made wb)
        (Workbench.calls wb ++ [Workbench.Warn (Workbench.NotRegistered plugin_id)]))) /\
  (forall manifest,
     Workbench._manifests wb !! plugin_id = Some manifest ->
     let r := Workbench.unregister plugin_id wb in
     fst r = Workbench.Return tt /\
     Workbench._manifests (snd r) = delete plugin_id (Workbench._manifests wb) /\
     Workbench._plugins (snd r) = delete plugin_id (Workbench._plugins wb) /\
     fst (Workbench.get_manifest plugin_id (snd r)) = Workbench.Return None /\
     Workbench.calls (snd r)
     = Workbench.calls wb ++
       match Workbench._plugins wb !! plugin_id with
       | Some (Some plugin) =>
           [Workbench.Stop plugin; Workbench.SetWorkbench plugin false;
            Workbench.SetManifest plugin None]
       | _ => []
       end ++
       [Workbench.RemoveExtensions (Workbench.extensions manifest);
        Workbench.RemoveExtensionPoints (Workbench.extension_points manifest)]).
Proof.
  split.
  - intros Hnone. unfold Workbench.unregister, Workbench.then_, Workbench.manifests_pop.
    rewrite Hnone. simpl. by rewrite delete_id.
  - intros manifest Hsome r. subst r.
    unfold Workbench.unregister, Workbench.then_, Workbench.manifests_pop,
      Workbench.plugins_pop.
    rewrite Hsome. cbn [Workbench._plugins Workbench._manifests].
    destruct (Workbench._plugins wb !! plugin_id) as [[plugin|]|]; simpl;
      rewrite ?lookup_delete_eq, <- ?app_assoc; done.
Qed.

(** An id that was never registered. *)
Lemma X17_unregister_witness :
  Workbench.unregister "nobody" Studio.empty
  = (Workbench.Return tt,
     Workbench.MkWorkbench ∅ ∅ 0 [Workbench.Warn (Workbench.NotRegistered "nobody")]).
Proof.
  apply (X17_unregister "nobody" Studio.empty). reflexivity.
Defined.

Lemma register_free {EP : Type}
  (create_manifest : string -> option (Workbench.PluginManifest EP))
  data manifest (wb : Workbench.t EP) :
  create_manifest data = Some manifest ->
  Workbench._manifests wb !! Workbench.id manifest = None ->
  Workbench.register create_manifest data wb
  = (Workbench.Return tt,
     Workbench.MkWorkbench
       (<[Workbench.id manifest := manifest]> (Workbench._manifests wb))
       (Workbench._plugins wb) (Workbench.made wb)
       (Workbench.calls wb ++
        [Workbench.AddExtensionPoints (Workbench.extension_points manifest);
         Workbench.AddExtensions (Workbench.extensions manifest)])).
Proof.
  intros Hsome Hfree. unfold Workbench.register. rewrite Hsome.
  unfold Workbench.then_, Workbench.manifests_get. rewrite Hfree.
  unfold Workbench.manifests_set, Workbench.emit.
  cbn [Workbench._manifests Workbench._plugins Workbench.made Workbench.calls].
  by rewrite <- app_assoc.
Qed.

Lemma unregister_inactive {EP : Type} plugin_id manifest (wb : Workbench.t EP) :
  Workbench._manifests wb !! plugin_id = Some manifest ->
  Workbench._plugins wb !! plugin_id = None ->
  Workbench.unregister plugin_id wb
  = (Workbench.Return tt,
     Workbench.MkWorkbench (delete plugin_id (Workbench._manifests wb))
       (Workbench._plugins wb) (Workbench.made wb)
       (Workbench.calls wb ++
        [Workbench.RemoveExtensions (Workbench.extensions manifest);
         Workbench.RemoveExtensionPoints (Workbench.extension_points manifest)])).
Proof.
  intros Hsome Hplugin.
  unfold Workbench.unregister, Workbench.then_, Workbench.manifests_pop,
    Workbench.plugins_pop.
  rewrite Hsome. cbn [Workbench._plugins Workbench._manifests].
  rewrite Hplugin. unfold Workbench.unit_, Workbench.emit.
  cbn [Workbench._manifests Workbench._plugins Workbench.made Workbench.calls].
  by rewrite (delete_id (Workbench._plugins wb)), <- app_assoc.
Qed.

(** X18.  [register] then [unregister] is a round trip on the dicts.
    For a manifest whose id is neither registered nor bound to a plugin,
    registering it and unregistering its id leaves the manifests and the
    plugins as they were, and the registry has been told, in this order,
    to add the extension points, add the extensions, remove the
    extensions and remove the extension points. *)
Theorem X18_register_unregister {EP : Type}
  (create_manifest : string -> option (Workbench.PluginManifest EP))
  data manifest (wb : Workbench.t EP) :
  create_manifest data = Some manifest ->
  Workbench._manifests wb !! Workbench.id manifest = None ->
  Workbench._plugins wb !! Workbench.id manifest = None ->
  Workbench.unregister (Workbench.id manifest)
    (snd (Workbench.register create_manifest data wb))
  = (Workbench.Return tt,
     Workbench.MkWorkbench (Workbench._manifests wb) (Workbench._plugins wb)
       (Workbench.made wb)
       (Workbench.calls wb ++
        [Workbench.AddExtensionPoints (Workbench.extension_points manifest);
         Workbench.AddExtensions (Workbench.extensions manifest);
         Workbench.RemoveExtensions (Workbench.extensions manifest);
         Workbench.RemoveExtensionPoints (Workbench.extension_points manifest)])).
Proof.
  intros Hsome Hfree Hplugin.
  rewrite (register_free _ _ _ _ Hsome Hfree). cbn [snd].
  rewrite (unregister_inactive _ manifest);
    cbn [Workbench._manifests Workbench._plugins]; [|by rewrite lookup_insert_eq|done].
  cbn [Workbench.made Workbench.calls].
  by rewrite delete_insert_eq, delete_id, <- app_assoc.
Qed.

Lemma X18_register_unregister_witness :
  Workbench.unregister "core" (snd (Studio.register "core" Studio.empty))
  = (Workbench.Return tt,
     Workbench.MkWorkbench ∅ ∅ 0
       [Workbench.AddExtensionPoints ["core.point"];
        Workbench.AddExtensions [Workbench.MkExtension "core" "app.ui.Panel"];
        Workbench.RemoveExtensions [Workbench.MkExtension "core" "app.ui.Panel"];
        Workbench.RemoveExtensionPoints ["core.point"]]).
Proof.
  apply (X18_register_unregister Studio.create_manifest "core"
           (Studio.manifest_of "core" "") Studio.empty); reflexivity.
Defined.

(** ** Plugins are made once *)

(** X19.  [Workbench.get_plugin] makes the plugin of an id at most once.
    Once a call with [force_create] has returned for an id that is bound
    or registered, with a plugin or with [None] because the plugin could
    not be made, every later call for the id returns the same answer and
    calls no collaborator at all: nothing is imported again, whatever an
    import would do by then, the plugin is not started again, and a
    failure is not warned about again. *)
Theorem X19_get_plugin_once {EP : Type}
  load_module has_attr is_callable makes_Plugin plugin_id
  (answer : option Workbench.instance) (wb wb1 : Workbench.t EP) :
  is_Some (Workbench._plugins wb !! plugin_id) \/
  is_Some (Workbench._manifests wb !! plugin_id) ->
  Workbench.get_plugin load_module has_attr is_callable makes_Plugin plugin_id true wb
  = (Workbench.Return answer, wb1) ->
  Workbench._plugins wb1 !! plugin_id = Some answer /\
  forall load_module' has_attr' is_callable' makes_Plugin' force_create,
    Workbench.get_plugin load_module' has_attr' is_callable' makes_Plugin'
      plugin_id force_create wb1
    = (Workbench.Return answer, wb1).
Proof.
  intros Hknown.
  assert (forall wb2 : Workbench.t EP,
            Workbench._plugins wb2 !! plugin_id = Some answer ->
            forall load_module' has_attr' is_callable' makes_Plugin' force_create,
              Workbench.get_plugin load_module' has_attr' is_callable' makes_Plugin'
                plugin_id force_create wb2
              = (Workbench.Return answer, wb2)) as Hbound.
  { intros wb2 Hwb2 ? ? ? ? ?.
    unfold Workbench.get_plugin, Workbench.then_, Workbench.plugins_get.
    by rewrite Hwb2. }
  unfold Workbench.get_plugin, Workbench.then_, Workbench.plugins_get,
    Workbench.manifests_get.
  destruct (Workbench._plugins wb !! plugin_id) as [bound|] eqn:Hplugin.
  { intros [= <- <-]. split; [done|]. by apply Hbound. }
  destruct (Workbench._manifests wb !! plugin_id) as [manifest|] eqn:Hmanifest.
  2: { by destruct Hknown as [[? [=]]|[? [=]]]. }
  cbn [negb].
  destruct (Workbench._create_plugin load_module has_attr is_callable makes_Plugin
              manifest wb) as [[[plugin|]|e] wb'] eqn:Hcreate; simpl.
  - intros [= <- <-]. split; [|apply Hbound]; simpl; by rewrite lookup_insert_eq.
  - intros [= <- <-]. split; [|apply Hbound]; simpl; by rewrite lookup_insert_eq.
  - done.
Qed.

(** The class of [ghost] is in a module that cannot be imported: one
    warning, at the first call. *)
Lemma X19_get_plugin_once_witness :
  let wb := snd (Studio.register "ghost" Studio.empty) in
  let wb1 := snd (Studio.get_plugin "ghost" true wb) in
  Workbench.calls wb1
  = Workbench.calls wb ++ [Workbench.Warn (Workbench.PluginImportFailed "broken.Ghost")] /\
  Studio.get_plugin "ghost" true wb1 = (Workbench.Return None, wb1).
Proof.
  intros wb wb1. split; [reflexivity|].
  apply (X19_get_plugin_once Studio.load_module Studio.has_attr Studio.is_callable
           Studio.makes_Plugin "ghost" None wb wb1).
  - right. by eexists.
  - reflexivity.
Defined.

(** X20.  A plugin class path without a dot never gives a plugin.  For a
    manifest whose class path is not empty and has no dot,
    [_create_plugin] imports the path as a module and calls the module:
    it raises [TypeError] when the module can be imported, warns and
    returns [None] when the import raises [ImportError], and lets any
    other exception of the import through.  Through [get_plugin] the
    [TypeError] comes out before the id is bound, so the next call tries
    again. *)
Theorem X20_dotless_class_path {EP : Type}
  load_module has_attr is_callable makes_Plugin
  (manifest : Workbench.PluginManifest EP) (wb : Workbench.t EP) :
  Workbench.cls manifest <> "" ->
  Workbench.contains_dot (Workbench.cls manifest) = false ->
  Workbench._create_plugin load_module has_attr is_callable makes_Plugin manifest wb
  = match load_module (Workbench.cls manifest) with
    | Workbench.Imported _ => (Workbench.Throw Workbench.TypeError_, wb)
    | Workbench.ImportError_ =>
        (Workbench.Return None,
         Workbench.MkWorkbench (Workbench._manifests wb) (Workbench._plugins wb)
           (Workbench.made wb)
           (Workbench.calls wb ++
            [Workbench.Warn (Workbench.PluginImportFailed (Workbench.cls manifest))]))
    | Workbench.Raised e => (Workbench.Throw e, wb)
    end /\
  (load_module (Workbench.cls manifest) = Workbench.Imported tt ->
   forall plugin_id,
     Workbench._plugins wb !! plugin_id = None ->
     Workbench._manifests wb !! plugin_id = Some manifest ->
     Workbench.get_plugin load_module has_attr is_callable makes_Plugin plugin_id true wb
     = (Workbench.Throw Workbench.TypeError_, wb)).
Proof.
  intros Hpath%String.eqb_neq Hdot.
  assert (Workbench._create_plugin load_module has_attr is_callable makes_Plugin
            manifest wb
          = match load_module (Workbench.cls manifest) with
            | Workbench.Imported _ => (Workbench.Throw Workbench.TypeError_, wb)
            | Workbench.ImportError_ =>
                (Workbench.Return None,
                 Workbench.MkWorkbench (Workbench._manifests wb)
                   (Workbench._plugins wb) (Workbench.made wb)
                   (Workbench.calls wb ++
                    [Workbench.Warn
                       (Workbench.PluginImportFailed (Workbench.cls manifest))]))
            | Workbench.Raised e => (Workbench.Throw e, wb)
            end)
    as Hcreate.
  { unfold Workbench._create_plugin, Workbench._import_object, Workbench.__import__.
    rewrite Hpath, Hdot. cbn [negb].
    by destruct (load_module (Workbench.cls manifest)). }
  split; [done|].
  intros Himp plugin_id Hplugin Hmanifest.
  unfold Workbench.get_plugin, Workbench.then_, Workbench.plugins_get,
    Workbench.manifests_get.
  rewrite Hplugin, Hmanifest. cbn [negb]. by rewrite Hcreate, Himp.
Qed.

(** The class path [app] names a module. *)
Lemma X20_dotless_class_path_witness :
  Studio.get_plugin "app" true (snd (Studio.register "app" Studio.empty))
  = (Workbench.Throw Workbench.TypeError_, snd (Studio.register "app" Studio.empty)).
Proof.
  destruct (X20_dotless_class_path Studio.load_module Studio.has_attr Studio.is_callable
              Studio.makes_Plugin (Studio.manifest_of "app" "app")
              (snd (Studio.register "app" Studio.empty))) as (_ & H).
  - discriminate.
  - reflexivity.
  - apply H; reflexivity.
Defined.

(** ** Extension objects *)

Section ExtensionObjects.

Context {EP : Type}.
Context (load_module : string -> Workbench.import_result unit) (has_attr is_callable : string -> string -> bool).
Context (makes_Plugin makes_ExtensionObject : string -> string -> bool).

Lemma get_plugin_binds plugin_id answer (wb wb1 : Workbench.t EP) :
  is_Some (Workbench._plugins wb !! plugin_id) \/
  is_Some (Workbench._manifests wb !! plugin_id) ->
  Workbench.get_plugin load_module has_attr is_callable makes_Plugin plugin_id true wb
  = (Workbench.Return answer, wb1) ->
  Workbench._plugins wb1 !! plugin_id = Some answer.
Proof.
  intros Hknown.
  unfold Workbench.get_plugin, Workbench.then_, Workbench.plugins_get,
    Workbench.manifests_get.
  destruct (Workbench._plugins wb !! plugin_id) as [bound|] eqn:Hplugin.
  { by intros [= <- <-]. }
  destruct (Workbench._manifests wb !! plugin_id) as [manifest|] eqn:Hmanifest.
  2: { by destruct Hknown as [[? [=]]|[? [=]]]. }
  cbn [negb].
  destruct (Workbench._create_plugin load_module has_attr is_callable makes_Plugin
              manifest wb) as [[[plugin|]|e] wb'] eqn:Hcreate; simpl;
    try done; intros [= <- <-]; simpl; by rewrite lookup_insert_eq.
Qed.

Lemma call_dicts c (wb : Workbench.t EP) :
  Workbench._plugins (snd (Workbench.call EP is_callable c wb)) = Workbench._plugins wb /\
  Workbench._manifests (snd (Workbench.call EP is_callable c wb))
  = Workbench._manifests wb.
Proof.
  destruct c as [name|module item]; simpl; [done|].
  by destruct (is_callable module item).
Qed.

Lemma create_extension_object_dicts extension (wb : Workbench.t EP) :
  Workbench._plugins
    (snd (Workbench._create_extension_object load_module has_attr is_callable
            makes_ExtensionObject extension wb))
  = Workbench._plugins wb /\
  Workbench._manifests
    (snd (Workbench._create_extension_object load_module has_attr is_callable
            makes_ExtensionObject extension wb))
  = Workbench._manifests wb.
Proof.
  unfold Workbench._create_extension_object.
  destruct (Workbench._import_object load_module has_attr
              (Workbench.extension_cls extension)) as [c| |e0]; [|done|done].
  unfold Workbench.then_.
  pose proof (call_dicts c wb) as Hcall.
  destruct (Workbench.call EP is_callable c wb) as [[obj|e] wb']; [|done].
  simpl in Hcall.
  by destruct (negb (Workbench.isinstance_ExtensionObject makes_ExtensionObject obj)).
Qed.

End ExtensionObjects.

(** X21.  [Workbench.create_extension_object] sees to the plugin of the
    extension first.  Whenever the call returns for an extension whose
    plugin id is registered, with an extension object or with [None],
    the plugin id is bound in the plugins of the workbench, so the
    plugin is never made a second time; and the manifest of the id is
    still registered. *)
Theorem X21_extension_object_binds_plugin {EP : Type}
  load_module has_attr is_callable makes_Plugin makes_ExtensionObject
  extension manifest answer (wb wb1 : Workbench.t EP) :
  Workbench._manifests wb !! Workbench.plugin_id extension = Some manifest ->
  Workbench.create_extension_object load_module has_attr is_callable makes_Plugin
    makes_ExtensionObject extension wb
  = (Workbench.Return answer, wb1) ->
  is_Some (Workbench._plugins wb1 !! Workbench.plugin_id extension) /\
  Workbench._manifests wb1 !! Workbench.plugin_id extension = Some manifest.
Proof.
  intros Hmanifest. unfold Workbench.create_extension_object.
  unfold Workbench.then_ at 1.
  destruct (Workbench.get_plugin load_module has_attr is_callable makes_Plugin
              (Workbench.plugin_id extension) true wb) as [[plugin|e] wb'] eqn:Hget;
    [|done].
  pose proof (get_plugin_binds _ _ _ _ _ _ _ _ (or_intror (mk_is_Some _ _ Hmanifest))
                Hget) as Hbound.
  assert (Workbench._manifests wb' = Workbench._manifests wb) as Hsame.
  { revert Hget.
    unfold Workbench.get_plugin, Workbench.then_, Workbench.plugins_get,
      Workbench.manifests_get.
    destruct (Workbench._plugins wb !! Workbench.plugin_id extension);
      [by intros [= _ <-]|].
    rewrite Hmanifest. cbn [negb].
    unfold Workbench._create_plugin.
    destruct (String.eqb (Workbench.cls manifest) ""); [by intros [= _ <-]|].
    destruct (Workbench._import_object load_module has_attr (Workbench.cls manifest))
      as [c| |e0]; [|by intros [= _ <-]|done].
    unfold Workbench.then_.
    pose proof (call_dicts is_callable c wb) as [_ Hcall].
    destruct (Workbench.call EP is_callable c wb) as [[obj|e] wb2]; [|done].
    simpl in Hcall.
    destruct (negb (Workbench.isinstance_Plugin makes_Plugin obj)); simpl;
      by intros [= _ <-]. }
  unfold Workbench.then_.
  pose proof (create_extension_object_dicts load_module has_attr is_callable
                makes_ExtensionObject extension wb') as [Hp Hm].
  destruct (Workbench._create_extension_object load_module has_attr is_callable
              makes_ExtensionObject extension wb') as [[[obj|]|e] wb2]; simpl in *;
    try done; intros [= _ <-]; simpl; rewrite ?Hp, ?Hm, ?Hbound, ?Hsame; done.
Qed.

(** The extension of [editor]: its plugin is made and started on the
    way. *)
Lemma X21_extension_object_binds_plugin_witness :
  let wb := snd (Studio.register "editor" Studio.empty) in
  let r := Workbench.create_extension_object Studio.load_module Studio.has_attr
             Studio.is_callable Studio.makes_Plugin Studio.makes_ExtensionObject
             (Workbench.MkExtension "editor" "app.ui.Panel") wb in
  fst r = Workbench.Return (Some (Workbench.MkInstance (Some ("app.ui", "Panel")) 1)) /\
  is_Some (Workbench._plugins (snd r) !! "editor").
Proof.
  intros wb r. split; [reflexivity|].
  apply (X21_extension_object_binds_plugin Studio.load_module Studio.has_attr
           Studio.is_callable Studio.makes_Plugin Studio.makes_ExtensionObject
           (Workbench.MkExtension "editor" "app.ui.Panel")
           (Studio.manifest_of "editor" "app.ui.Editor")
           (Some (Workbench.MkInstance (Some ("app.ui", "Panel")) 1)) wb (snd r)).
  - reflexivity.
  - reflexivity.
Defined.
